(** * update_models.py: the model-table generator of the IoTeX gateway docs

    A shallow embedding of [scripts/update_models.py] and the properties
    its specification states about it.

    Conventions of the embedding.
    - A Python [str] is the Rocq [string] of its UTF-8 bytes (a lone
      surrogate is written with the same three-byte scheme).  Equality,
      [startswith], [replace] of one ASCII character by another, and
      the order of strings are then those of the bytes: bytes compare as
      the code points do.
    - [str.title] depends on the case tables of the Unicode character
      database, which are not part of the program.  It is the parameter
      [py_title] of the pipeline; [Str.title] is what it is on ASCII
      text.
    - The decoded responses have the shape the gateway declares: a model
      has the strings [id] and [owned_by]; a pricing entry has the string
      [model_name] and numbers under its other keys, each of which may
      be missing.
    - A decoded JSON number is a Python [int] or a Python [float]:
      [PyInt] carries a [Z], [PyFloat] a binary64 value of the Standard
      Library's [spec_float].  Products round as binary64 does, an [int]
      too large for a float raises [OverflowError], comparisons are
      exact, and [.2f], [.4f] and [repr] print the digits Python prints.
    - A [dict] that is only looked up is a [gmap]; a [dict] that is
      iterated is an association list in insertion order.
    - [main] threads the process state (the two gateway responses, the
      output file, the standard output) through a state-and-exception
      monad.  The exceptions are those of the requests, of the decoder
      and of the arithmetic; the operating system is taken to accept
      the final write and the print (the directory exists, the text can
      be encoded), so [write_text] and [print] do not raise. *)

From Stdlib Require Import ZArith List Ascii String Bool Lia.
From Stdlib Require Import DecimalString SpecFloat.
From stdpp Require Import base list strings gmap sorting.

Local Open Scope Z_scope.

(** ** Python strings *)

Module Str.

Definition nl : ascii := "010"%char.
Definition dquote : ascii := "034"%char.

(** [s.startswith(pre)] *)
Definition startswith (s pre : string) : bool := String.prefix pre s.

(** [s.replace(old, new)] for one-character [old] and [new]. *)
Fixpoint replace_char (old new : ascii) (s : string) : string :=
  match s with
  | EmptyString => EmptyString
  | String c s' =>
      String (if Ascii.eqb c old then new else c) (replace_char old new s')
  end.

Definition is_upper (c : ascii) : bool :=
  (65 <=? N_of_ascii c)%N && (N_of_ascii c <=? 90)%N.
Definition is_lower (c : ascii) : bool :=
  (97 <=? N_of_ascii c)%N && (N_of_ascii c <=? 122)%N.
Definition is_cased (c : ascii) : bool := is_upper c || is_lower c.
Definition to_upper (c : ascii) : ascii :=
  if is_lower c then ascii_of_N (N_of_ascii c - 32) else c.
Definition to_lower (c : ascii) : ascii :=
  if is_upper c then ascii_of_N (N_of_ascii c + 32) else c.

(** [s.title()] on ASCII text: a character that follows a cased
    character is lower-cased, any other character is title-cased, the
    cased characters being the letters.  Bytes of other characters are
    left alone here; for text that has them [str.title] is the
    parameter [py_title] below. *)
Fixpoint title_from (previous_is_cased : bool) (s : string) : string :=
  match s with
  | EmptyString => EmptyString
  | String c s' =>
      String (if previous_is_cased then to_lower c else to_upper c)
             (title_from (is_cased c) s')
  end.
Definition title (s : string) : string := title_from false s.

(** A string of characters below 128. *)
Fixpoint is_ascii (s : string) : bool :=
  match s with
  | EmptyString => true
  | String c s' => (N_of_ascii c <? 128)%N && is_ascii s'
  end.

(** [sep.join(parts)] *)
Definition join (sep : string) (parts : list string) : string :=
  String.concat sep parts.

(** [s.replace("-", " ").title()] on ASCII text. *)
Definition spaced_title (s : string) : string :=
  title (replace_char "-"%char " "%char s).

End Str.

(** ** Python numbers *)

Module Num.

(** binary64 *)
Definition prec : Z := 53.
Definition emax : Z := 1024.

Inductive number :=
| PyInt (n : Z)
| PyFloat (x : spec_float).

Inductive exn := URLError | JSONDecodeError | OverflowError.

(** The value of a float literal [n / 10^k] of the source, correctly
    rounded ([n] and [10^k] are below [2^53] for the literals used). *)
Definition float_of_Z (n : Z) : spec_float := binary_normalize prec emax n 0 false.
Definition decimal_literal (n : Z) (k : nat) : spec_float :=
  SFdiv prec emax (float_of_Z n) (float_of_Z (10 ^ Z.of_nat k)).

(** [float(n)] for an [int]: round to nearest even, [OverflowError]
    ("int too large to convert to float") when the result is not finite. *)
Definition float_of_int (n : Z) : exn + spec_float :=
  match float_of_Z n with
  | S754_infinity _ => inl OverflowError
  | x => inr x
  end.

(** [x * y] on floats never raises: it rounds, overflowing to [inf]. *)
Definition float_mul (x y : spec_float) : spec_float := SFmul prec emax x y.

(** [a * x] where [x] is a float: the result is a float. *)
Definition mul_float (a : number) (x : spec_float) : exn + spec_float :=
  match a with
  | PyInt n =>
      match float_of_int n with
      | inl e => inl e
      | inr y => inr (float_mul y x)
      end
  | PyFloat y => inr (float_mul y x)
  end.

(** [a * b] on numbers. *)
Definition py_mul (a b : number) : exn + number :=
  match a, b with
  | PyInt m, PyInt n => inr (PyInt (m * n))
  | _, PyFloat y =>
      match mul_float a y with inl e => inl e | inr z => inr (PyFloat z) end
  | PyFloat x, PyInt n =>
      match float_of_int n with
      | inl e => inl e
      | inr y => inr (PyFloat (float_mul x y))
      end
  end.

(** Comparisons are exact, also between an [int] and a [float]: both
    sides are read as [m * 2^e], an infinity, or not-a-number. *)
Inductive xvalue :=
| XNan
| XInf (negative : bool)
| XDyadic (m e : Z).

Definition xvalue_of_float (x : spec_float) : xvalue :=
  match x with
  | S754_nan => XNan
  | S754_infinity s => XInf s
  | S754_zero _ => XDyadic 0 0
  | S754_finite s m e => XDyadic (if s then Z.neg m else Z.pos m) e
  end.

Definition xvalue_of (a : number) : xvalue :=
  match a with
  | PyInt n => XDyadic n 0
  | PyFloat x => xvalue_of_float x
  end.

Definition dyadic_compare (m1 e1 m2 e2 : Z) : comparison :=
  let e := Z.min e1 e2 in
  Z.compare (m1 * 2 ^ (e1 - e)) (m2 * 2 ^ (e2 - e)).

Definition xcompare (a b : xvalue) : option comparison :=
  match a, b with
  | XNan, _ | _, XNan => None
  | XInf s1, XInf s2 =>
      Some (if s1 then (if s2 then Eq else Lt) else (if s2 then Gt else Eq))
  | XInf s, XDyadic _ _ => Some (if s then Lt else Gt)
  | XDyadic _ _, XInf s => Some (if s then Gt else Lt)
  | XDyadic m1 e1, XDyadic m2 e2 => Some (dyadic_compare m1 e1 m2 e2)
  end.

Definition compare (a b : number) : option comparison :=
  xcompare (xvalue_of a) (xvalue_of b).

(** [a == b], [a < b], [a > b], [a >= b] *)
Definition eqb (a b : number) : bool :=
  match compare a b with Some Eq => true | _ => false end.
Definition ltb (a b : number) : bool :=
  match compare a b with Some Lt => true | _ => false end.
Definition gtb (a b : number) : bool :=
  match compare a b with Some Gt => true | _ => false end.
Definition geb (a b : number) : bool :=
  match compare a b with Some (Gt | Eq) => true | _ => false end.

(** *** Decimal output *)

Definition str_of_nonneg (n : Z) : string :=
  NilZero.string_of_uint (N.to_uint (Z.to_N n)).

(** [str(n)] for an [int] *)
Definition str_of_int (n : Z) : string := NilZero.string_of_int (Z.to_int n).

Definition pow2 (e : Z) : Z := 2 ^ Z.max e 0.
Definition pow10 (e : Z) : Z := 10 ^ Z.max e 0.

Definition round_half_even (n d : Z) : Z :=
  let q := n / d in
  match Z.compare (2 * (n mod d)) d with
  | Lt => q
  | Gt => q + 1
  | Eq => if Z.even q then q else q + 1
  end.

(** [m * 2^e * 10^k] rounded to the nearest integer, ties to even. *)
Definition scaled_round (k : nat) (m : positive) (e : Z) : Z :=
  round_half_even (Z.pos m * pow2 e * 10 ^ Z.of_nat k) (pow2 (- e)).

Definition digit_char (d : Z) : ascii := ascii_of_N (48 + Z.to_N d).

(** The [k] digits of [r < 10^k], leading zeros included. *)
Fixpoint frac_digits (k : nat) (r : Z) : string :=
  match k with
  | O => EmptyString
  | S k' =>
      String (digit_char (r / 10 ^ Z.of_nat k'))
             (frac_digits k' (r mod 10 ^ Z.of_nat k'))
  end.

(** [n / 10^k] written with [k] digits after the point. *)
Definition fixed_digits (k : nat) (n : Z) : string :=
  str_of_nonneg (n / 10 ^ Z.of_nat k) +:+
  match k with
  | O => ""
  | S _ => "." +:+ frac_digits k (n mod 10 ^ Z.of_nat k)
  end.

Definition sign_str (s : bool) : string := if s then "-" else "".

(** [f"{x:.kf}"] *)
Definition format_f (k : nat) (x : spec_float) : string :=
  match x with
  | S754_nan => "nan"
  | S754_infinity s => sign_str s +:+ "inf"
  | S754_zero s => sign_str s +:+ fixed_digits k 0
  | S754_finite s m e => sign_str s +:+ fixed_digits k (scaled_round k m e)
  end.

(** *** [repr] of a float: the shortest digits that read back as it *)

Definition is_pow2 (m : positive) : bool := Z.pos m =? 2 ^ Z.log2 (Z.pos m).

(** The multiple [d * 10^q] nearest to [m * 2^e] within its rounding
    interval, if the interval holds a multiple of [10^q] at all.  The
    interval's ends are the midpoints to the neighbouring floats, and
    belong to it when [m] is even. *)
Definition shortest_at (m : positive) (e q : Z) : option Z :=
  let a := pow2 (e - 2) * pow10 (- q) in
  let b := pow2 (2 - e) * pow10 q in
  let delta := if is_pow2 m && (3 - emax - prec <? e) then 1 else 2 in
  let nx := 4 * Z.pos m * a in
  let nlow := (4 * Z.pos m - delta) * a in
  let nhigh := (4 * Z.pos m + 2) * a in
  let inside d :=
    (0 <? d) &&
    (if Z.even (Z.pos m) then (nlow <=? d * b) && (d * b <=? nhigh)
     else (nlow <? d * b) && (d * b <? nhigh)) in
  let d1 := nx / b in
  let d2 := d1 + 1 in
  match inside d1, inside d2 with
  | true, true =>
      match Z.compare (nx - d1 * b) (d2 * b - nx) with
      | Lt => Some d1
      | Gt => Some d2
      | Eq => Some (if Z.even d1 then d1 else d2)
      end
  | true, false => Some d1
  | false, true => Some d2
  | false, false => None
  end.

Fixpoint shortest_from (fuel : nat) (m : positive) (e q : Z) : Z * Z :=
  match fuel with
  | O => (Z.pos m * pow2 e, 0)
  | S fuel' =>
      match shortest_at m e q with
      | Some d => (d, q)
      | None => shortest_from fuel' m e (q - 1)
      end
  end.

Definition ndigits (n : Z) : Z := Z.of_nat (String.length (str_of_nonneg n)).

(** A power of ten above [m * 2^e], where the search starts. *)
Definition top_exponent (m : positive) (e : Z) : Z :=
  if 0 <=? e then ndigits (Z.pos m * pow2 e) + 1
  else
    let ip := Z.pos m / pow2 (- e) in
    if 0 <? ip then ndigits ip + 1
    else 2 - ndigits (pow2 (- e) / Z.pos m).

Definition shortest_digits (m : positive) (e : Z) : Z * Z :=
  shortest_from 40 m e (top_exponent m e).

Fixpoint zeros (n : nat) : string :=
  match n with
  | O => EmptyString
  | S n' => String "0"%char (zeros n')
  end.

Definition substring_from (n : nat) (s : string) : string :=
  String.substring n (String.length s - n) s.

(** The layout of [repr]: exponent form when the decimal point lies
    before the fourth leading zero or after sixteen digits. *)
Definition repr_layout (digits : string) (decpt : Z) : string :=
  let n := Z.of_nat (String.length digits) in
  if (decpt <=? -4) || (16 <? decpt) then
    let ex := decpt - 1 in
    String.substring 0 1 digits +:+
    (if 1 <? n then "." +:+ substring_from 1 digits else "") +:+
    "e" +:+ (if ex <? 0 then "-" else "+") +:+
    (if Z.abs ex <? 10 then "0" else "") +:+ str_of_nonneg (Z.abs ex)
  else if decpt <=? 0 then
    "0." +:+ zeros (Z.to_nat (- decpt)) +:+ digits
  else if decpt <? n then
    String.substring 0 (Z.to_nat decpt) digits +:+ "." +:+
    substring_from (Z.to_nat decpt) digits
  else
    digits +:+ zeros (Z.to_nat (decpt - n)) +:+ ".0".

Definition float_repr (x : spec_float) : string :=
  match x with
  | S754_nan => "nan"
  | S754_infinity s => sign_str s +:+ "inf"
  | S754_zero s => sign_str s +:+ "0.0"
  | S754_finite s m e =>
      let '(d, q) := shortest_digits m e in
      let digits := str_of_nonneg d in
      sign_str s +:+ repr_layout digits (Z.of_nat (String.length digits) + q)
  end.

(** [f"{a}"] *)
Definition py_str (a : number) : string :=
  match a with
  | PyInt n => str_of_int n
  | PyFloat x => float_repr x
  end.

End Num.

Export Num (number(..), exn(..)).

(** ** The pipeline *)

Section Pipeline.

(** [py_title s] is [s.title()].  Which characters are cased, and what
    their title-case and lower-case forms are, is laid down in the
    tables of the Unicode character database, which are not part of the
    program: the function enters as a parameter.  On ASCII text, where
    the cased characters are the letters, it is [Str.title]. *)
Variable py_title : string -> string.

(** ** Classifier *)

(** [PROVIDER_MAP], iterated with [.items()]: insertion order matters. *)
Definition PROVIDER_MAP : list (string * string) :=
  [ ("gemini", "Google");
    ("google/", "Google");
    ("deepseek-ai/", "DeepSeek");
    ("meta-llama/", "Meta");
    ("Qwen/", "Qwen");
    ("mistralai/", "Mistral");
    ("moonshotai/", "Moonshot");
    ("openai/", "OpenAI");
    ("gpt-", "OpenAI");
    ("black-forest-labs/", "Black Forest Labs");
    ("x-ai/", "xAI");
    ("openrouter/", "OpenRouter");
    ("zai-org/", "Zhipu AI");
    ("whisper-", "OpenAI") ].

(** [CATEGORY_MAP], only ever looked up with [.get]. *)
Definition CATEGORY_MAP : gmap string string :=
  list_to_map
    [ ("openai", "Chat"); ("gemini", "Chat"); ("image-generation", "Image") ].

(** The [for prefix, provider in ...: if ...: return provider] loop;
    [None] when the loop runs to its end. *)
Fixpoint provider_by_prefix (items : list (string * string)) (model_id : string)
  : option string :=
  match items with
  | [] => None
  | (prefix, provider) :: rest =>
      if Str.startswith model_id prefix then Some provider
      else provider_by_prefix rest model_id
  end.

Definition detect_provider (model_id owned_by : string) : string :=
  match provider_by_prefix PROVIDER_MAP model_id with
  | Some provider => provider
  | None =>
      if String.eqb owned_by "vertex-ai" then "Google"
      else if String.eqb owned_by "openai" then "OpenAI"
      else py_title (Str.replace_char "-" " " owned_by)
  end.

(** [CATEGORY_MAP.get(ep, ep.replace("-", " ").title())] *)
Definition category_of (ep : string) : string :=
  default (py_title (Str.replace_char "-" " " ep)) (CATEGORY_MAP !! ep).

(** The loop of [detect_category], [categories] being the list it appends to. *)
Fixpoint collect_categories (categories endpoint_types : list string)
  : list string :=
  match endpoint_types with
  | [] => categories
  | ep :: rest =>
      let cat := category_of ep in
      if bool_decide (cat ∈ categories)
      then collect_categories categories rest
      else collect_categories (categories ++ [cat]) rest
  end.

Definition detect_category (endpoint_types : list string) : string :=
  Str.join ", " (collect_categories [] endpoint_types).

(** The specification's wording of the same step: keep the first
    occurrence of every label and drop its later copies. *)
Fixpoint dedup_first (labels : list string) : list string :=
  match labels with
  | [] => []
  | x :: rest => x :: filter (fun y => y ≠ x) (dedup_first rest)
  end.

(** ** Price formatter *)

(** Ratio 1.0 = $2/M tokens *)
Definition BASE_UNIT : spec_float := Num.decimal_literal 20 1.

(** [format_price(value: float)].  [main] only passes products with
    [BASE_UNIT], which are floats.  The last two branches of the source
    return the same string. *)
Definition format_price (value : spec_float) : string :=
  if Num.eqb (PyFloat value) (PyInt 0) then "Free"
  else if Num.ltb (PyFloat value) (PyFloat (Num.decimal_literal 1 2))
  then "$" +:+ Num.format_f 4 value
  else if Num.geb (PyFloat value) (PyInt 1)
  then "$" +:+ Num.format_f 2 value
  else "$" +:+ Num.format_f 2 value.

(** ** The gateway's data *)

(** An entry of the model list: the keys [main] reads. *)
Record model_record := ModelRecord {
  m_id : string;
  m_owned_by : string
}.

(** An entry of the pricing list: its [model_name], and its numeric
    keys ([quota_type], [model_ratio], [completion_ratio],
    [model_price]), any of which may be missing. *)
Record pricing_record := PricingRecord {
  model_name : string;
  fields : gmap string number
}.

(** [dict.get(key, fallback)] *)
Definition dict_get {V} (d : gmap string V) (key : string) (fallback : V) : V :=
  default fallback (d !! key).

(** The loop [for p in pricing_data["data"]: pricing[p["model_name"]] = p] *)
Definition build_pricing (pricing_data : list pricing_record)
  : gmap string (gmap string number) :=
  foldl (fun pricing p => <[model_name p := fields p]> pricing) ∅ pricing_data.

(** ** Sorting *)

Definition sort_key (m : model_record) : string * string :=
  (detect_provider (m_id m) (m_owned_by m), m_id m).

(** [k1 <= k2] on tuples of strings: the first components decide unless
    they are equal. *)
Definition key_leb (k1 k2 : string * string) : bool :=
  match String.compare k1.1 k2.1 with
  | Lt => true
  | Gt => false
  | Eq => String.leb k1.2 k2.2
  end.

(** [list.sort(key=...)] is stable; so is insertion after the elements
    that are strictly smaller. *)
Fixpoint insert_by_key (m : model_record) (sorted : list model_record)
  : list model_record :=
  match sorted with
  | [] => [m]
  | m' :: rest =>
      if key_leb (sort_key m) (sort_key m') then m :: m' :: rest
      else m' :: insert_by_key m rest
  end.

Fixpoint sort_models (models : list model_record) : list model_record :=
  match models with
  | [] => []
  | m :: rest => insert_by_key m (sort_models rest)
  end.

(** ** Renderer *)

Definition bind_exn {A B} (r : exn + A) (k : A -> exn + B) : exn + B :=
  match r with
  | inl e => inl e
  | inr a => k a
  end.

(** The two price labels of a row, from the pricing object [p]. *)
Definition price_labels (p : gmap string number) : exn + (string * string) :=
  let quota_type := dict_get p "quota_type" (PyInt 0) in
  if Num.eqb quota_type (PyInt 1) then
    let price := dict_get p "model_price" (PyInt 0) in
    inr (if Num.gtb price (PyInt 0)
         then "$" +:+ Num.py_str price +:+ "/req"
         else "Free",
         "-")
  else
    let ratio := dict_get p "model_ratio" (PyInt 0) in
    let comp_ratio := dict_get p "completion_ratio" (PyInt 1) in
    bind_exn (Num.mul_float ratio BASE_UNIT) (fun input_price =>
    bind_exn (Num.py_mul ratio comp_ratio) (fun ratio_comp =>
    bind_exn (Num.mul_float ratio_comp BASE_UNIT) (fun output_price =>
    inr (format_price input_price, format_price output_price)))).

Definition row_line (model_id provider input_str output_str : string) : string :=
  "| `" +:+ model_id +:+ "` | " +:+ provider +:+ " | " +:+ input_str
  +:+ " | " +:+ output_str +:+ " |".

(** The body of [for m in models]. *)
Definition render_row (pricing : gmap string (gmap string number))
    (m : model_record) : exn + string :=
  let model_id := m_id m in
  let provider := detect_provider model_id (m_owned_by m) in
  let p := dict_get pricing model_id ∅ in
  bind_exn (price_labels p) (fun labels =>
  inr (row_line model_id provider labels.1 labels.2)).

(** The loop itself: [rows] grows by one line per model, and the first
    exception ends it. *)
Fixpoint render_rows (pricing : gmap string (gmap string number))
    (rows : list string) (models : list model_record) : exn + list string :=
  match models with
  | [] => inr rows
  | m :: rest =>
      bind_exn (render_row pricing m) (fun row =>
      render_rows pricing (rows ++ [row]) rest)
  end.

Definition newline : string := String Str.nl EmptyString.
Definition quoted (s : string) : string :=
  String Str.dquote s +:+ String Str.dquote EmptyString.

(** The document: every line of the template ends with a newline. *)
Definition document (count : nat) (table : string) : string :=
  String.concat ""
    (map (fun line => line +:+ newline)
      [ "---";
        "title: " +:+ quoted "Supported AI Models";
        "description: " +:+
          quoted "List of AI models available through IoTeX AI Gateway";
        "---";
        "";
        "IoTeX AI Gateway provides access to models from multiple leading AI providers. The model list is updated regularly as new models become available.";
        "";
        "## Available Models (" +:+ Num.str_of_int (Z.of_nat count) +:+ " models)";
        "";
        "Prices are per 1M tokens.";
        "";
        "| Model | Provider | Input | Output |";
        "|-------|----------|------:|-------:|";
        table;
        "";
        "<Note>";
        "This list may not reflect the latest additions. Call the `/v1/models` endpoint for the most up-to-date list.";
        "</Note>";
        "";
        "## Query Models Programmatically";
        "";
        "```bash";
        "curl https://gateway.iotex.ai/v1/models";
        "```" ]).

(** ** The process and its surroundings *)

(** What [json.loads(urlopen(url).read())] comes to: an exception of
    the request or of the decoder, or the decoded [data] array. *)
Inductive response (A : Type) :=
| Raises (e : exn)
| Returns (data : A).
Arguments Raises {A} e.
Arguments Returns {A} data.

Record world := World {
  models_response : response (list model_record);
  pricing_response : response (list pricing_record);
  output_path : string;
  output_file : option string;
  stdout : list string
}.

(** Computations of the script: the world goes in and comes out, with an
    exception or a value. *)
Definition script (A : Type) : Type := world -> (exn + A) * world.

Definition ret {A} (a : A) : script A := fun w => (inr a, w).
Definition raise {A} (e : exn) : script A := fun w => (inl e, w).
Definition bind {A B} (c : script A) (k : A -> script B) : script B :=
  fun w =>
    match c w with
    | (inl e, w') => (inl e, w')
    | (inr a, w') => k a w'
    end.
Definition lift {A} (r : exn + A) : script A :=
  match r with
  | inl e => raise e
  | inr a => ret a
  end.

Notation "'do' x <- c ; k" := (bind c (fun x => k))
  (at level 10, x name, c at level 100, k at level 200).

Definition fetch_models : script (list model_record) :=
  fun w =>
    match models_response w with
    | Raises e => (inl e, w)
    | Returns data => (inr data, w)
    end.

Definition fetch_pricing : script (list pricing_record) :=
  fun w =>
    match pricing_response w with
    | Raises e => (inl e, w)
    | Returns data => (inr data, w)
    end.

(** [OUTPUT.write_text(content)], when the file can be opened and the
    content encoded: the file then holds the content.  A write that the
    operating system or the encoder refuses is outside the embedding. *)
Definition write_text (content : string) : script unit :=
  fun w =>
    (inr tt,
     {| models_response := models_response w;
        pricing_response := pricing_response w;
        output_path := output_path w;
        output_file := Some content;
        stdout := stdout w |}).

Definition print (line : string) : script unit :=
  fun w =>
    (inr tt,
     {| models_response := models_response w;
        pricing_response := pricing_response w;
        output_path := output_path w;
        output_file := output_file w;
        stdout := stdout w ++ [line] |}).

Definition get_output_path : script string := fun w => (inr (output_path w), w).

Definition main : script unit :=
  do models_data <- fetch_models;
  do pricing_data <- fetch_pricing;
  let pricing := build_pricing pricing_data in
  let models := sort_models models_data in
  do rows <- lift (render_rows pricing [] models);
  let table := Str.join newline rows in
  let content := document (length models) table in
  do _ <- write_text content;
  do OUTPUT <- get_output_path;
  print ("Updated " +:+ OUTPUT +:+ " with "
         +:+ Num.str_of_int (Z.of_nat (length models)) +:+ " models").

(** ** Vocabulary of the specification *)

Definition is_digit (c : ascii) : bool :=
  (48 <=? N_of_ascii c)%N && (N_of_ascii c <=? 57)%N.

Fixpoint all_digits (s : string) : bool :=
  match s with
  | EmptyString => true
  | String c s' => is_digit c && all_digits s'
  end.

(** A dollar string with [k] decimal places: a dollar sign, at least
    one digit, a point, and exactly [k] digits. *)
Definition dollar_decimals (k : nat) (s : string) : Prop :=
  exists whole frac,
    s = "$" +:+ whole +:+ "." +:+ frac
    /\ whole <> ""
    /\ all_digits whole = true
    /\ all_digits frac = true
    /\ String.length frac = k.

(** The floats the specification's examples name. *)
Definition float_0 : spec_float := S754_zero false.
Definition float_0_005 : spec_float := Num.decimal_literal 5 3.
Definition float_0_01 : spec_float := Num.decimal_literal 1 2.
Definition float_1 : spec_float := Num.decimal_literal 10 1.
Definition float_2_5 : spec_float := Num.decimal_literal 25 1.

(** The token-based rule: the input price is [ratio * BASE_UNIT], the
    output price [ratio * comp_ratio * BASE_UNIT], both through
    [format_price]. *)
Definition token_labels (ratio comp_ratio : number) : exn + (string * string) :=
  bind_exn (Num.mul_float ratio BASE_UNIT) (fun input_price =>
  bind_exn (Num.py_mul ratio comp_ratio) (fun ratio_comp =>
  bind_exn (Num.mul_float ratio_comp BASE_UNIT) (fun output_price =>
  inr (format_price input_price, format_price output_price)))).

(** The per-request rule. *)
Definition request_labels (price : number) : string * string :=
  (if Num.gtb price (PyInt 0) then "$" +:+ Num.py_str price +:+ "/req"
   else "Free",
   "-").

(** The row of a model, given its two price labels. *)
Definition row_with (m : model_record) (labels : string * string) : string :=
  row_line (m_id m) (detect_provider (m_id m) (m_owned_by m)) labels.1 labels.2.

(** The end-to-end scenario of the specification. *)
Definition gpt4o_model : model_record := ModelRecord "gpt-4o" "openai".
Definition gpt4o_pricing : pricing_record :=
  PricingRecord "gpt-4o"
    {[ "quota_type" := PyInt 0;
       "model_ratio" := PyFloat float_1;
       "completion_ratio" := PyInt 2 ]}.

(** Ascending order of sort keys: the provider labels are in strictly
    ascending order, or they are equal and the identifiers ascend. *)
Definition key_le (k1 k2 : string * string) : Prop :=
  String.ltb k1.1 k2.1 = true
  \/ (k1.1 = k2.1 /\ String.leb k1.2 k2.2 = true).

Definition model_le (m1 m2 : model_record) : Prop :=
  key_le (sort_key m1) (sort_key m2).

Definition is_float (a : number) : bool :=
  match a with
  | PyFloat _ => true
  | PyInt _ => false
  end.

(** A pricing object whose ratios, where given, are floats. *)
Definition float_ratios (p : gmap string number) : Prop :=
  forall key a,
    key = "model_ratio" \/ key = "completion_ratio" ->
    p !! key = Some a -> is_float a = true.

(** The world a completed run leaves behind. *)
Definition world_after (w : world) (count : nat) (rows : list string) : world :=
  {| models_response := models_response w;
     pricing_response := pricing_response w;
     output_path := output_path w;
     output_file := Some (document count (Str.join newline rows));
     stdout := stdout w ++
       ["Updated " +:+ output_path w +:+ " with "
        +:+ Num.str_of_int (Z.of_nat count) +:+ " models"] |}.

(** A small gateway: four models, two of them priced. *)
Definition sample_models : list model_record :=
  [ ModelRecord "gpt-4o" "openai";
    ModelRecord "abc" "some-org";
    ModelRecord "gemini-2" "vertex-ai";
    ModelRecord "flux" "bfl" ].

Definition sample_pricing : list pricing_record :=
  [ gpt4o_pricing;
    PricingRecord "flux"
      {[ "quota_type" := PyInt 1;
         "model_price" := PyFloat (Num.decimal_literal 4 2) ]} ].

Definition sample_world : world :=
  {| models_response := Returns sample_models;
     pricing_response := Returns sample_pricing;
     output_path := "/docs/overview/supported-ai-models.mdx";
     output_file := Some "stale";
     stdout := [] |}.

Definition sample_rows : list string :=
  [ "| `flux` | Bfl | $0.04/req | - |";
    "| `gemini-2` | Google | Free | Free |";
    "| `gpt-4o` | OpenAI | $2.00 | $4.00 |";
    "| `abc` | Some Org | Free | Free |" ].

(** The same gateway when the pricing request fails. *)
Definition offline_world : world :=
  {| models_response := models_response sample_world;
     pricing_response := Raises URLError;
     output_path := output_path sample_world;
     output_file := Some "stale";
     stdout := [] |}.

(** The sample gateway seen from another checkout, before any run. *)
Definition fresh_world : world :=
  {| models_response := Returns sample_models;
     pricing_response := Returns sample_pricing;
     output_path := "/srv/site/overview/supported-ai-models.mdx";
     output_file := None;
     stdout := ["starting"] |}.

(** The prefix of a [PROVIDER_MAP] item does not start the identifier. *)
Definition misses (model_id : string) (item : string * string) : Prop :=
  Str.startswith model_id item.1 = false.

(** ** Vocabulary of the further properties *)

(** The world [w] when the gateway answers with these two lists. *)
Definition with_responses (w : world) (models_data : list model_record)
    (pricing_data : list pricing_record) : world :=
  {| models_response := Returns models_data;
     pricing_response := Returns pricing_data;
     output_path := output_path w;
     output_file := output_file w;
     stdout := stdout w |}.

(** What a run leaves to its user: how it ended, and the output file. *)
Definition outcome (w : world) : (exn + unit) * option string :=
  ((main w).1, output_file (main w).2).

(** A gateway that lists no model, with a pricing entry left over. *)
Definition empty_world : world :=
  {| models_response := Returns [];
     pricing_response :=
       Returns [PricingRecord "x" {[ "model_ratio" := PyInt (10 ^ 400) ]}];
     output_path := "out.mdx";
     output_file := None;
     stdout := [] |}.

(** How often the character [c] occurs in [s]. *)
Fixpoint count_char (c : ascii) (s : string) : nat :=
  match s with
  | EmptyString => O
  | String c' s' => (if Ascii.eqb c' c then 1 else 0) + count_char c s'
  end.

(** The items of a provider table whose prefix starts the identifier. *)
Definition matching_items (items : list (string * string)) (model_id : string)
  : list (string * string) :=
  filter (fun item => Str.startswith model_id item.1 = true) items.

Definition float_0_00004 : spec_float := Num.decimal_literal 4 5.

(** A number as the decoder produces it: a float is a binary64 value in
    canonical form. *)
Definition valid_number (a : number) : Prop :=
  match a with
  | PyInt _ => True
  | PyFloat x => valid_binary Num.prec Num.emax x = true
  end.

(** The characters that would break a table row: the newline, the pipe
    and the backtick. *)
Definition breaks (c : ascii) : bool :=
  Ascii.eqb c Str.nl || Ascii.eqb c "|" || Ascii.eqb c "`".

(** A string without such characters. *)
Fixpoint clean (s : string) : bool :=
  match s with
  | EmptyString => true
  | String c s' => negb (breaks c) && clean s'
  end.

(** What the proofs use of [str.title]: on ASCII text it is [Str.title],
    and it neither makes nor removes a newline, a pipe or a backtick. *)
Hypothesis py_title_ascii :
  forall s, Str.is_ascii s = true -> py_title s = Str.title s.
Hypothesis py_title_clean :
  forall s, clean s = true -> clean (py_title s) = true.

(** * Properties *)

(** ** Strings *)

Lemma startswith_app (s pre : string) :
  Str.startswith s pre = true <-> exists rest, s = pre +:+ rest.
Proof.
  unfold Str.startswith. revert s.
  induction pre as [|c pre IH]; intros s; simpl.
  - destruct s; split; eauto.
  - destruct s as [|c' s]; simpl.
    + split; [discriminate | intros [rest Hrest]; discriminate].
    + destruct (ascii_dec c c') as [->|Hne].
      * rewrite IH. split; intros [rest Hrest]; exists rest.
        -- by rewrite Hrest.
        -- by injection Hrest.
      * split; [discriminate | intros [rest Hrest]].
        injection Hrest as ? ?. congruence.
Qed.

(** ** Classifier *)

Lemma replace_char_ascii (old new : ascii) (s : string) :
  (N_of_ascii new <? 128)%N = true ->
  Str.is_ascii s = true -> Str.is_ascii (Str.replace_char old new s) = true.
Proof.
  intros Hnew. induction s as [|c s IH]; simpl; [done|].
  intros [Hc Hs]%andb_true_iff. rewrite (IH Hs), andb_true_r.
  by destruct (Ascii.eqb c old).
Qed.

Section provider_loop.
Variable model_id : string.

Lemma provider_by_prefix_first before prefix provider after :
  Forall (misses model_id) before ->
  Str.startswith model_id prefix = true ->
  provider_by_prefix (before ++ (prefix, provider) :: after) model_id
  = Some provider.
Proof.
  intros Hbefore Hhit.
  induction Hbefore as [|[pre lab] before Hmiss _ IH]; simpl.
  - by rewrite Hhit.
  - unfold misses in Hmiss. simpl in Hmiss. by rewrite Hmiss.
Qed.

Lemma provider_by_prefix_none items :
  Forall (misses model_id) items -> provider_by_prefix items model_id = None.
Proof.
  induction 1 as [|[pre lab] items Hmiss _ IH]; simpl; [done|].
  unfold misses in Hmiss. simpl in Hmiss. by rewrite Hmiss.
Qed.

End provider_loop.

(** C5: [detect_provider] returns the label of the first pair of
    [PROVIDER_MAP], in its declared order, whose prefix the model
    identifier starts with; when there is none it returns "Google" for
    the owner "vertex-ai", "OpenAI" for the owner "openai", and in all
    other cases the owner with hyphens turned into spaces and
    title-cased by [str.title] (which on an ASCII owner is the
    letter-wise [Str.title]).  The two calls of the specification come
    out as "OpenAI" and "Some Org". *)
Theorem detect_provider_first_prefix_or_fallback (model_id owned_by : string) :
  (forall before prefix label after,
      PROVIDER_MAP = before ++ (prefix, label) :: after ->
      Forall (fun item => ~ exists rest, model_id = item.1 +:+ rest) before ->
      (exists rest, model_id = prefix +:+ rest) ->
      detect_provider model_id owned_by = label)
  /\ (Forall (fun item => ~ exists rest, model_id = item.1 +:+ rest)
        PROVIDER_MAP ->
      (owned_by = "vertex-ai" -> detect_provider model_id owned_by = "Google")
      /\ (owned_by = "openai" -> detect_provider model_id owned_by = "OpenAI")
      /\ (owned_by <> "vertex-ai" -> owned_by <> "openai" ->
          detect_provider model_id owned_by
          = py_title (Str.replace_char "-" " " owned_by)
          /\ (Str.is_ascii owned_by = true ->
              detect_provider model_id owned_by
              = Str.title (Str.replace_char "-" " " owned_by))))
  /\ detect_provider "gpt-4o" "openai" = "OpenAI"
  /\ detect_provider "unknown-model" "some-org" = "Some Org".
Proof.
  assert (Hmiss : forall items,
    Forall (fun item => ~ exists rest, model_id = item.1 +:+ rest) items ->
    Forall (fun item : string * string =>
              Str.startswith model_id item.1 = false) items).
  { intros items Hitems. eapply Forall_impl; [exact Hitems|].
    intros item Hno. simpl in *.
    destruct (Str.startswith model_id item.1) eqn:E; [|done].
    by apply startswith_app in E. }
  split; [|split; [|split; [reflexivity|]]].
  - intros before prefix label after Hmap Hbefore Hhit.
    unfold detect_provider. rewrite Hmap.
    rewrite (provider_by_prefix_first model_id before prefix label after);
      [done | by apply Hmiss | by apply startswith_app].
  - intros Hnone. unfold detect_provider.
    rewrite (provider_by_prefix_none model_id PROVIDER_MAP) by by apply Hmiss.
    split; [|split].
    + by intros ->.
    + by intros ->.
    + intros Hv Ho.
      apply String.eqb_neq in Hv, Ho. rewrite Hv, Ho.
      split; [done|]. intros Hascii.
      apply py_title_ascii. by apply replace_char_ascii.
  - change (detect_provider "unknown-model" "some-org")
      with (py_title "some org").
    by rewrite py_title_ascii.
Qed.

Lemma filter_all {A} (P : A -> Prop) `{!forall x, Decision (P x)} (l : list A) :
  (forall x, P x) -> filter P l = l.
Proof.
  intros HP. induction l as [|x l IH]; [done|].
  rewrite filter_cons_True by done. by rewrite IH.
Qed.

Lemma dedup_first_elem_of (labels : list string) (x : string) :
  x ∈ dedup_first labels <-> x ∈ labels.
Proof.
  induction labels as [|y labels IH]; simpl; [done|].
  rewrite !elem_of_cons, list_elem_of_filter, IH.
  destruct (decide (x = y)); tauto.
Qed.

Lemma dedup_first_NoDup (labels : list string) : NoDup (dedup_first labels).
Proof.
  induction labels as [|y labels IH]; simpl; constructor.
  - rewrite list_elem_of_filter. by intros [Hne _].
  - by apply NoDup_filter.
Qed.

(** The loop invariant of [detect_category]: what is already in
    [categories] stays in front, and the remaining tags add their
    labels in first-occurrence order unless [categories] has them. *)
Lemma collect_categories_dedup (categories endpoint_types : list string) :
  collect_categories categories endpoint_types
  = categories
    ++ filter (fun y => y ∉ categories)
         (dedup_first (map category_of endpoint_types)).
Proof.
  revert categories.
  induction endpoint_types as [|ep rest IH]; intros categories; simpl.
  - by rewrite app_nil_r.
  - case_bool_decide as Hin; rewrite IH.
    + rewrite filter_cons_False by naive_solver.
      f_equal. rewrite list_filter_filter.
      apply list_filter_iff. intros y. split; [|by intros [Hy _]].
      intros Hy. split; [done|]. by intros ->.
    + rewrite filter_cons_True by done.
      rewrite <- app_assoc. simpl. do 2 f_equal.
      rewrite list_filter_filter.
      apply list_filter_iff. intros y.
      rewrite not_elem_of_app, list_elem_of_singleton. naive_solver.
Qed.

(** C6: [detect_category] maps each tag, in input order, through
    [CATEGORY_MAP] (a tag that is not a key becomes its own text with
    hyphens turned into spaces, title-cased by [str.title], which on an
    ASCII tag is the letter-wise [Str.title]), keeps the first occurrence
    of each label, and joins the labels with ", ".  The two calls of
    the specification come out as "Chat, Image" and "". *)
Theorem detect_category_maps_dedups_joins (endpoint_types : list string) :
  detect_category endpoint_types
  = Str.join ", " (dedup_first (map category_of endpoint_types))
  /\ (forall ep label, CATEGORY_MAP !! ep = Some label -> category_of ep = label)
  /\ (forall ep, CATEGORY_MAP !! ep = None ->
        category_of ep = py_title (Str.replace_char "-" " " ep)
        /\ (Str.is_ascii ep = true ->
            category_of ep = Str.title (Str.replace_char "-" " " ep)))
  /\ detect_category ["openai"; "image-generation"] = "Chat, Image"
  /\ detect_category [] = "".
Proof.
  split; [|split; [|split; [|split; reflexivity]]].
  - unfold detect_category. rewrite collect_categories_dedup. simpl.
    f_equal. apply filter_all. intros y. apply not_elem_of_nil.
  - intros ep label Hlookup. unfold category_of. by rewrite Hlookup.
  - intros ep Hlookup. unfold category_of. rewrite Hlookup.
    split; [done|]. intros Hascii. simpl.
    apply py_title_ascii. by apply replace_char_ascii.
Qed.

(** ** Decimal output *)

Lemma all_digits_app (s1 s2 : string) :
  all_digits (s1 +:+ s2) = all_digits s1 && all_digits s2.
Proof.
  induction s1 as [|c s1 IH]; simpl; [done|].
  by rewrite IH, andb_assoc.
Qed.

Lemma string_of_uint_digits (d : Decimal.uint) :
  all_digits (NilEmpty.string_of_uint d) = true.
Proof. induction d; simpl; auto. Qed.

Lemma str_of_nonneg_digits (n : Z) :
  all_digits (Num.str_of_nonneg n) = true /\ Num.str_of_nonneg n <> "".
Proof.
  unfold Num.str_of_nonneg, NilZero.string_of_uint.
  destruct (N.to_uint (Z.to_N n)) as [|d|d|d|d|d|d|d|d|d|d]; simpl;
    (split; [first [reflexivity | apply string_of_uint_digits] | discriminate]).
Qed.

Lemma digit_char_digit (d : Z) : 0 <= d <= 9 -> is_digit (Num.digit_char d) = true.
Proof.
  intros Hd.
  assert (Hcases : d = 0 \/ d = 1 \/ d = 2 \/ d = 3 \/ d = 4 \/ d = 5 \/ d = 6
                   \/ d = 7 \/ d = 8 \/ d = 9) by lia.
  repeat (destruct Hcases as [-> | Hcases]; [reflexivity|]).
  by subst.
Qed.

Lemma frac_digits_length (k : nat) (r : Z) :
  String.length (Num.frac_digits k r) = k.
Proof. revert r. induction k as [|k IH]; intros r; simpl; [done|]. by rewrite IH. Qed.

Lemma frac_digits_digits (k : nat) (r : Z) :
  0 <= r < 10 ^ Z.of_nat k -> all_digits (Num.frac_digits k r) = true.
Proof.
  revert r. induction k as [|k IH]; intros r Hr; [done|].
  cbn [Num.frac_digits all_digits].
  assert (Hpow : 0 < 10 ^ Z.of_nat k) by (apply Z.pow_pos_nonneg; lia).
  rewrite Nat2Z.inj_succ, Z.pow_succ_r in Hr by lia.
  rewrite digit_char_digit, IH; [done| |].
  - apply Z.mod_pos_bound. lia.
  - split; [apply Z.div_pos; lia|].
    apply Z.lt_succ_r, Z.div_lt_upper_bound; lia.
Qed.

Lemma fixed_digits_shape (k : nat) (n : Z) :
  0 <= n ->
  exists whole frac,
    Num.fixed_digits (S k) n = whole +:+ "." +:+ frac
    /\ whole <> "" /\ all_digits whole = true
    /\ all_digits frac = true /\ String.length frac = S k.
Proof.
  intros Hn. unfold Num.fixed_digits.
  destruct (str_of_nonneg_digits (n / 10 ^ Z.of_nat (S k))) as [Hd Hne].
  eexists _, _. split; [reflexivity|].
  split; [done|]. split; [done|].
  split; [|apply frac_digits_length].
  apply frac_digits_digits, Z.mod_pos_bound, Z.pow_pos_nonneg; lia.
Qed.

Lemma round_half_even_nonneg (n d : Z) :
  0 <= n -> 0 < d -> 0 <= Num.round_half_even n d.
Proof.
  intros Hn Hd. unfold Num.round_half_even.
  assert (0 <= n / d) by (apply Z.div_pos; lia).
  destruct (2 * (n mod d) ?= d); [destruct (Z.even (n / d))|..]; lia.
Qed.

Lemma scaled_round_nonneg (k : nat) (m : positive) (e : Z) :
  0 <= Num.scaled_round k m e.
Proof.
  unfold Num.scaled_round, Num.pow2.
  apply round_half_even_nonneg.
  - repeat apply Z.mul_nonneg_nonneg; try lia; apply Z.pow_nonneg; lia.
  - apply Z.pow_pos_nonneg; lia.
Qed.

(** A positive finite float written with [.kf], [k] at least one, is
    digits, a point and [k] digits. *)
Lemma format_f_shape (k : nat) (m : positive) (e : Z) :
  dollar_decimals (S k) ("$" +:+ Num.format_f (S k) (S754_finite false m e)).
Proof.
  destruct (fixed_digits_shape k (Num.scaled_round (S k) m e))
    as (whole & frac & Heq & Hrest); [apply scaled_round_nonneg|].
  exists whole, frac. split; [|done].
  unfold Num.format_f, Num.sign_str. by rewrite Heq.
Qed.

(** ** Comparisons *)

Lemma pow2_shift_pos (e e' : Z) : 0 < 2 ^ (e - Z.min e e').
Proof. apply Z.pow_pos_nonneg; lia. Qed.

Lemma dyadic_compare_pos_zero (m : positive) (e : Z) :
  Num.dyadic_compare (Z.pos m) e 0 0 = Gt.
Proof.
  unfold Num.dyadic_compare. apply Z.compare_gt_iff.
  pose proof (pow2_shift_pos e 0). nia.
Qed.

Lemma dyadic_compare_neg_zero (m : positive) (e : Z) :
  Num.dyadic_compare (Z.neg m) e 0 0 = Lt.
Proof.
  unfold Num.dyadic_compare. apply Z.compare_lt_iff.
  pose proof (pow2_shift_pos e 0). nia.
Qed.

Lemma dyadic_compare_neg_pos (m m' : positive) (e e' : Z) :
  Num.dyadic_compare (Z.neg m) e (Z.pos m') e' = Lt.
Proof.
  unfold Num.dyadic_compare. apply Z.compare_lt_iff.
  pose proof (pow2_shift_pos e e'). pose proof (pow2_shift_pos e' e).
  rewrite (Z.min_comm e' e) in *. nia.
Qed.

Lemma dyadic_compare_zero_pos (m : positive) (e : Z) :
  Num.dyadic_compare 0 0 (Z.pos m) e = Lt.
Proof.
  unfold Num.dyadic_compare. apply Z.compare_lt_iff.
  pose proof (pow2_shift_pos e 0). rewrite (Z.min_comm 0 e). nia.
Qed.

(** How a float compares with the integer zero. *)
Lemma compare_float_zero (x : spec_float) :
  Num.compare (PyFloat x) (PyInt 0)
  = match x with
    | S754_nan => None
    | S754_infinity s => Some (if s then Lt else Gt)
    | S754_zero _ => Some Eq
    | S754_finite s _ _ => Some (if s then Lt else Gt)
    end.
Proof.
  destruct x as [s|s| |s m e]; try reflexivity.
  unfold Num.compare. cbn [Num.xvalue_of Num.xvalue_of_float Num.xcompare].
  destruct s; by rewrite ?dyadic_compare_neg_zero, ?dyadic_compare_pos_zero.
Qed.

(** A float that is at least a positive finite float is positive. *)
Lemma geb_positive (x : spec_float) (m : positive) (e : Z) :
  Num.geb (PyFloat x) (PyFloat (S754_finite false m e)) = true ->
  x = S754_infinity false \/ exists m' e', x = S754_finite false m' e'.
Proof.
  unfold Num.geb, Num.compare.
  destruct x as [s|s| |s m' e']; cbn [Num.xvalue_of Num.xvalue_of_float Num.xcompare].
  - by rewrite dyadic_compare_zero_pos.
  - destruct s; [discriminate | by left].
  - discriminate.
  - destruct s; [by rewrite dyadic_compare_neg_pos | right; eauto].
Qed.

(** ** Price formatter *)

Lemma float_0_01_finite : float_0_01 = S754_finite false 5764607523034235 (-59).
Proof. reflexivity. Qed.

(** The branch [format_price] takes, by the magnitude of its argument. *)
Lemma format_price_small (value : spec_float) :
  Num.gtb (PyFloat value) (PyInt 0) = true ->
  Num.ltb (PyFloat value) (PyFloat float_0_01) = true ->
  format_price value = "$" +:+ Num.format_f 4 value
  /\ exists m e, value = S754_finite false m e.
Proof.
  intros Hgt Hlt. unfold format_price. fold float_0_01. rewrite Hlt.
  unfold Num.gtb, Num.eqb in *. rewrite compare_float_zero in *.
  destruct value as [s|s| |s m e]; try discriminate.
  - destruct s; [discriminate|]. by rewrite float_0_01_finite in Hlt.
  - destruct s; [discriminate|]. eauto.
Qed.

Lemma format_price_large (value : spec_float) :
  Num.geb (PyFloat value) (PyFloat float_0_01) = true ->
  format_price value = "$" +:+ Num.format_f 2 value.
Proof.
  intros Hge. unfold format_price. fold float_0_01.
  assert (Hzero : Num.eqb (PyFloat value) (PyInt 0) = false).
  { rewrite float_0_01_finite in Hge.
    unfold Num.eqb. rewrite compare_float_zero.
    by destruct (geb_positive _ _ _ Hge) as [-> | (m & e & ->)]. }
  assert (Hlt : Num.ltb (PyFloat value) (PyFloat float_0_01) = false).
  { unfold Num.geb in Hge. unfold Num.ltb.
    by destruct (Num.compare _ _) as [[]|]. }
  rewrite Hzero, Hlt. by destruct (Num.geb _ (PyInt 1)).
Qed.

(** C4, as the code has it: [format_price] maps zero to "Free", every
    value strictly between 0 and 0.01 to a dollar string with four
    decimal places, and every finite value of at least 0.01 to a dollar
    string with two decimal places (the two-decimal format is applied to
    every value of at least 0.01, and writes infinity as "inf").  The
    four calls of the specification come out as "Free", "$0.0050",
    "$0.01" and "$2.50". *)
Theorem format_price_by_magnitude (value : spec_float) :
  (Num.eqb (PyFloat value) (PyInt 0) = true -> format_price value = "Free")
  /\ (Num.gtb (PyFloat value) (PyInt 0) = true ->
      Num.ltb (PyFloat value) (PyFloat float_0_01) = true ->
      format_price value = "$" +:+ Num.format_f 4 value
      /\ dollar_decimals 4 (format_price value))
  /\ (Num.geb (PyFloat value) (PyFloat float_0_01) = true ->
      format_price value = "$" +:+ Num.format_f 2 value
      /\ (value <> S754_infinity false ->
          dollar_decimals 2 (format_price value)))
  /\ format_price float_0 = "Free"
  /\ format_price float_0_005 = "$0.0050"
  /\ format_price float_0_01 = "$0.01"
  /\ format_price float_2_5 = "$2.50".
Proof.
  split; [|split; [|split; [|repeat split; reflexivity]]].
  - intros Hzero. unfold format_price. by rewrite Hzero.
  - intros Hgt Hlt.
    destruct (format_price_small value Hgt Hlt) as [Heq (m & e & ->)].
    split; [done|]. rewrite Heq. apply format_f_shape.
  - intros Hge. split; [by apply format_price_large|].
    intros Hfinite. rewrite (format_price_large value Hge).
    rewrite float_0_01_finite in Hge.
    destruct (geb_positive _ _ _ Hge) as [-> | (m & e & ->)]; [done|].
    apply format_f_shape.
Qed.

(** C4, as the specification words it, fails at positive infinity: it is
    at least 0.01, and [format_price] writes it as "$inf". *)
Lemma format_price_infinity_no_decimals :
  ~ (forall value : spec_float,
        Num.geb (PyFloat value) (PyFloat float_0_01) = true ->
        dollar_decimals 2 (format_price value)).
Proof.
  intros Hclaim.
  destruct (Hclaim (S754_infinity false) eq_refl)
    as (whole & frac & Heq & Hne & Hwhole & _).
  change (format_price (S754_infinity false)) with "$inf" in Heq.
  destruct whole as [|c whole]; [done|].
  injection Heq as Hc _. subst c. discriminate.
Qed.

(** ** Pricing rules *)

Lemma compare_int_int (n k : Z) : Num.compare (PyInt n) (PyInt k) = Some (n ?= k).
Proof.
  unfold Num.compare. cbn [Num.xvalue_of Num.xcompare].
  unfold Num.dyadic_compare.
  change (2 ^ (0 - Z.min 0 0)) with 1. by rewrite !Z.mul_1_r.
Qed.

Lemma eqb_int_int (n k : Z) : Num.eqb (PyInt n) (PyInt k) = bool_decide (n = k).
Proof.
  unfold Num.eqb. rewrite compare_int_int.
  destruct (Z.compare_spec n k); case_bool_decide; done || lia.
Qed.

(** A number equal to 0 is not equal to 1. *)
Lemma eqb_zero_not_one (q : number) :
  Num.eqb q (PyInt 0) = true -> Num.eqb q (PyInt 1) = false.
Proof.
  destruct q as [n|x].
  - rewrite !eqb_int_int. intros ->%bool_decide_eq_true.
    by apply bool_decide_eq_false.
  - unfold Num.eqb at 1. rewrite compare_float_zero.
    by destruct x as [s|[]| |[] m e].
Qed.

Lemma price_labels_token (p : gmap string number) :
  Num.eqb (dict_get p "quota_type" (PyInt 0)) (PyInt 1) = false ->
  price_labels p
  = token_labels (dict_get p "model_ratio" (PyInt 0))
                 (dict_get p "completion_ratio" (PyInt 1)).
Proof. intros Hq. unfold price_labels. by rewrite Hq. Qed.

Lemma price_labels_request (p : gmap string number) :
  Num.eqb (dict_get p "quota_type" (PyInt 0)) (PyInt 1) = true ->
  price_labels p = inr (request_labels (dict_get p "model_price" (PyInt 0))).
Proof. intros Hq. unfold price_labels. by rewrite Hq. Qed.

Lemma render_row_labels (pricing : gmap string (gmap string number))
    (m : model_record) :
  render_row pricing m
  = bind_exn (price_labels (dict_get pricing (m_id m) ∅))
             (fun labels => inr (row_with m labels)).
Proof. reflexivity. Qed.

(** [format_price] never writes the dash of the per-request rule. *)
Lemma format_price_not_dash (value : spec_float) : format_price value <> "-".
Proof.
  unfold format_price.
  repeat match goal with |- context [if ?b then _ else _] => destruct b end;
    discriminate.
Qed.

Lemma token_labels_output_not_dash (ratio comp_ratio : number) (input_str : string) :
  token_labels ratio comp_ratio <> inr (input_str, "-").
Proof.
  unfold token_labels, bind_exn.
  repeat match goal with |- context [match ?r with inl _ => _ | inr _ => _ end] =>
    destruct r end; try discriminate.
  intros [= _ Hout]. by apply format_price_not_dash in Hout.
Qed.

(** The pricing index holds no object for an identifier that no
    pricing entry names. *)
Lemma build_pricing_absent (pricing_data : list pricing_record) (model_id : string) :
  Forall (fun p => model_name p <> model_id) pricing_data ->
  build_pricing pricing_data !! model_id = None.
Proof.
  unfold build_pricing.
  assert (Hgen : forall acc : gmap string (gmap string number),
    acc !! model_id = None ->
    Forall (fun p => model_name p <> model_id) pricing_data ->
    foldl (fun pricing p => <[model_name p := fields p]> pricing) acc pricing_data
      !! model_id = None).
  { induction pricing_data as [|p rest IH]; intros acc Hacc Hall; simpl; [done|].
    inversion Hall as [|? ? Hp Hrest]; subst.
    apply IH; [|done]. by rewrite lookup_insert_ne. }
  intros Hall. by apply Hgen.
Qed.

(** The last pricing entry of a name is the one the index keeps. *)
Lemma build_pricing_last (before after : list pricing_record) (p : pricing_record) :
  Forall (fun p' => model_name p' <> model_name p) after ->
  build_pricing (before ++ p :: after) !! model_name p = Some (fields p).
Proof.
  intros Hafter. unfold build_pricing. rewrite foldl_app. simpl.
  match goal with
  | |- context [foldl ?f ∅ before] => generalize (foldl f ∅ before)
  end.
  intros acc.
  assert (Hgen : forall acc : gmap string (gmap string number),
    acc !! model_name p = Some (fields p) ->
    foldl (fun pricing p0 => <[model_name p0 := fields p0]> pricing) acc after
      !! model_name p = Some (fields p)).
  { induction Hafter as [|p' after Hp' _ IH]; intros acc' Hacc'; simpl; [done|].
    apply IH. by rewrite lookup_insert_ne. }
  apply Hgen. by rewrite lookup_insert_eq.
Qed.

Lemma token_labels_defaults : token_labels (PyInt 0) (PyInt 1) = inr ("Free", "Free").
Proof. reflexivity. Qed.

(** With float ratios no product raises. *)
Lemma token_labels_floats (ratio comp_ratio : spec_float) :
  token_labels (PyFloat ratio) (PyFloat comp_ratio)
  = inr (format_price (Num.float_mul ratio BASE_UNIT),
         format_price
           (Num.float_mul (Num.float_mul ratio comp_ratio) BASE_UNIT)).
Proof. reflexivity. Qed.

(** C2: for a model whose pricing object has quota type 0 (given or by
    default), and for a model with no pricing object, the input label
    is [format_price (model_ratio * BASE_UNIT)] and the output label
    [format_price (model_ratio * completion_ratio * BASE_UNIT)], with
    the ratio defaulting to 0 and the completion ratio to 1; a model
    that no pricing entry names renders "Free" and "Free"; and the
    gpt-4o scenario renders the row of the specification. *)
Theorem token_pricing_for_quota_type_0
    (pricing : gmap string (gmap string number)) (m : model_record) :
  let p := dict_get pricing (m_id m) ∅ in
  let ratio := dict_get p "model_ratio" (PyInt 0) in
  let comp_ratio := dict_get p "completion_ratio" (PyInt 1) in
  (Num.eqb (dict_get p "quota_type" (PyInt 0)) (PyInt 0) = true ->
     render_row pricing m
     = bind_exn (token_labels ratio comp_ratio)
         (fun labels => inr (row_with m labels))
     /\ forall input_price ratio_comp output_price,
         Num.mul_float ratio BASE_UNIT = inr input_price ->
         Num.py_mul ratio comp_ratio = inr ratio_comp ->
         Num.mul_float ratio_comp BASE_UNIT = inr output_price ->
         render_row pricing m
         = inr (row_line (m_id m) (detect_provider (m_id m) (m_owned_by m))
                  (format_price input_price) (format_price output_price)))
  /\ (pricing !! m_id m = None ->
      ratio = PyInt 0 /\ comp_ratio = PyInt 1
      /\ render_row pricing m = inr (row_with m ("Free", "Free")))
  /\ (forall pricing_data,
        Forall (fun entry => model_name entry <> m_id m) pricing_data ->
        render_row (build_pricing pricing_data) m
        = inr (row_with m ("Free", "Free")))
  /\ render_rows (build_pricing [gpt4o_pricing]) [] (sort_models [gpt4o_model])
     = inr ["| `gpt-4o` | OpenAI | $2.00 | $4.00 |"].
Proof.
  intros p ratio comp_ratio.
  assert (Habsent : forall pricing' : gmap string (gmap string number),
    pricing' !! m_id m = None ->
    render_row pricing' m = inr (row_with m ("Free", "Free"))).
  { intros pricing' Hnone. rewrite render_row_labels.
    unfold dict_get at 1. rewrite Hnone. reflexivity. }
  split; [|split; [|split; [|reflexivity]]].
  - intros Hq. apply eqb_zero_not_one in Hq.
    assert (Hrow : render_row pricing m
                   = bind_exn (token_labels ratio comp_ratio)
                       (fun labels => inr (row_with m labels))).
    { rewrite render_row_labels. fold p.
      by rewrite (price_labels_token p Hq). }
    split; [done|].
    intros input_price ratio_comp output_price Hin Hmul Hout.
    rewrite Hrow. unfold token_labels.
    rewrite Hin. cbn [bind_exn]. rewrite Hmul. cbn [bind_exn].
    by rewrite Hout.
  - intros Hnone. subst ratio comp_ratio p.
    unfold dict_get at 2 4. rewrite Hnone. simpl.
    repeat split; by apply Habsent.
  - intros pricing_data Hall. by apply Habsent, build_pricing_absent.
Qed.

(** C3: for a model whose pricing object has quota type 1, the input
    label is "$<model-price>/req" when the model price is positive and
    "Free" otherwise, and the output label is "-". *)
Theorem request_pricing_for_quota_type_1
    (pricing : gmap string (gmap string number)) (m : model_record)
    (p : gmap string number) (quota_type : number) :
  pricing !! m_id m = Some p ->
  p !! "quota_type" = Some quota_type ->
  Num.eqb quota_type (PyInt 1) = true ->
  let price := dict_get p "model_price" (PyInt 0) in
  render_row pricing m
  = inr (row_line (m_id m) (detect_provider (m_id m) (m_owned_by m))
           (if Num.gtb price (PyInt 0)
            then "$" +:+ Num.py_str price +:+ "/req"
            else "Free")
           "-").
Proof.
  intros Hp Hq Hone price.
  rewrite render_row_labels. unfold dict_get at 1. rewrite Hp. simpl.
  rewrite price_labels_request; [reflexivity|].
  unfold dict_get. by rewrite Hq.
Qed.

(** C10: whenever the quota type is not equal to 1 (2 or -1 as well as
    0) the row is priced by the token-based rule, and the per-request
    rule, whose output label is "-", is selected by no other quota type
    than 1. *)
Theorem token_pricing_unless_quota_type_1
    (pricing : gmap string (gmap string number)) (m : model_record) :
  let p := dict_get pricing (m_id m) ∅ in
  let quota_type := dict_get p "quota_type" (PyInt 0) in
  let ratio := dict_get p "model_ratio" (PyInt 0) in
  let comp_ratio := dict_get p "completion_ratio" (PyInt 1) in
  (Num.eqb quota_type (PyInt 1) = false ->
     render_row pricing m
     = bind_exn (token_labels ratio comp_ratio)
         (fun labels => inr (row_with m labels)))
  /\ (forall n : Z, quota_type = PyInt n -> n <> 1 ->
     render_row pricing m
     = bind_exn (token_labels ratio comp_ratio)
         (fun labels => inr (row_with m labels)))
  /\ ((exists input_str, price_labels p = inr (input_str, "-"))
      <-> Num.eqb quota_type (PyInt 1) = true).
Proof.
  intros p quota_type ratio comp_ratio.
  assert (Htoken : Num.eqb quota_type (PyInt 1) = false ->
    render_row pricing m
    = bind_exn (token_labels ratio comp_ratio)
        (fun labels => inr (row_with m labels))).
  { intros Hq. rewrite render_row_labels. fold p.
    by rewrite (price_labels_token p Hq). }
  split; [done|split].
  - intros n Hn Hne. apply Htoken. rewrite Hn, eqb_int_int.
    by apply bool_decide_eq_false.
  - split.
    + intros [input_str Hlabels].
      destruct (Num.eqb quota_type (PyInt 1)) eqn:Hq; [done|].
      rewrite (price_labels_token p Hq) in Hlabels.
      by apply token_labels_output_not_dash in Hlabels.
    + intros Hq. rewrite (price_labels_request p Hq). by eexists.
Qed.

(** ** Sorting *)

Lemma string_compare_refl (a : string) : String.compare a a = Eq.
Proof.
  induction a as [|c a IH]; simpl; [done|].
  unfold Ascii.compare. by rewrite N.compare_refl.
Qed.

Lemma string_ltb_leb (a b : string) :
  String.ltb a b = true <-> String.leb a b = true /\ a <> b.
Proof.
  unfold String.ltb, String.leb.
  destruct (String.compare a b) eqn:E.
  - apply String.compare_eq_iff in E. subst. split; [done|]. by intros [_ ?].
  - split; [|done]. intros _. split; [done|]. intros ->.
    by rewrite string_compare_refl in E.
  - split; [done|]. by intros [? _].
Qed.

Lemma string_leb_trans (a b c : string) :
  String.leb a b = true -> String.leb b c = true -> String.leb a c = true.
Proof.
  intros Hab Hbc. apply Is_true_true.
  change (String.le a c). transitivity b; by apply Is_true_true.
Qed.

Lemma string_ltb_trans (a b c : string) :
  String.ltb a b = true -> String.ltb b c = true -> String.ltb a c = true.
Proof.
  rewrite !string_ltb_leb. intros [Hab Hne] [Hbc _].
  split; [by eapply string_leb_trans|].
  intros ->. apply Hne. by apply String.leb_antisym.
Qed.

Lemma key_leb_le (k1 k2 : string * string) : key_leb k1 k2 = true <-> key_le k1 k2.
Proof.
  unfold key_leb, key_le, String.ltb.
  destruct (String.compare k1.1 k2.1) eqn:E.
  - apply String.compare_eq_iff in E. split; [by right|].
    by intros [?|[_ ?]].
  - split; [by left | done].
  - split; [done|]. intros [?|[Heq _]]; [done|].
    by rewrite Heq, string_compare_refl in E.
Qed.

Lemma key_le_trans (k1 k2 k3 : string * string) :
  key_le k1 k2 -> key_le k2 k3 -> key_le k1 k3.
Proof.
  intros [H12 | [E12 H12]] [H23 | [E23 H23]].
  - left. by eapply string_ltb_trans.
  - left. by rewrite <- E23.
  - left. by rewrite E12.
  - right. split; [congruence | by eapply string_leb_trans].
Qed.

Lemma key_le_total (k1 k2 : string * string) :
  key_leb k1 k2 = false -> key_le k2 k1.
Proof.
  unfold key_leb, key_le, String.ltb, String.leb.
  rewrite (String.compare_antisym k1.1 k2.1), (String.compare_antisym k1.2 k2.2).
  destruct (String.compare k2.1 k1.1) eqn:E1; simpl; try done.
  - apply String.compare_eq_iff in E1.
    destruct (String.compare k2.2 k1.2); simpl; try done; intros _; by right.
  - intros _. by left.
Qed.

Lemma model_le_trans (m1 m2 m3 : model_record) :
  model_le m1 m2 -> model_le m2 m3 -> model_le m1 m3.
Proof. apply key_le_trans. Qed.

Lemma insert_by_key_perm (m : model_record) (sorted : list model_record) :
  insert_by_key m sorted ≡ₚ m :: sorted.
Proof.
  induction sorted as [|m' rest IH]; simpl; [done|].
  destruct (key_leb _ _); [done|].
  rewrite IH. apply Permutation_swap.
Qed.

Lemma sort_models_perm (models : list model_record) : sort_models models ≡ₚ models.
Proof.
  induction models as [|m rest IH]; simpl; [done|].
  by rewrite insert_by_key_perm, IH.
Qed.

Lemma sort_models_length (models : list model_record) :
  length (sort_models models) = length models.
Proof. apply Permutation_length, sort_models_perm. Qed.

Lemma insert_by_key_sorted (m : model_record) (sorted : list model_record) :
  StronglySorted model_le sorted ->
  StronglySorted model_le (insert_by_key m sorted).
Proof.
  induction 1 as [|m' rest Hrest IH Hall]; simpl.
  - repeat constructor.
  - destruct (key_leb (sort_key m) (sort_key m')) eqn:E.
    + apply key_leb_le in E.
      constructor; [by constructor|].
      constructor; [done|].
      eapply Forall_impl; [exact Hall|].
      intros m'' Hm''. by apply (model_le_trans m m' m'').
    + apply key_le_total in E.
      constructor; [done|].
      rewrite insert_by_key_perm. by constructor.
Qed.

Lemma sort_models_sorted (models : list model_record) :
  StronglySorted model_le (sort_models models).
Proof.
  induction models as [|m rest IH]; simpl; [constructor|].
  by apply insert_by_key_sorted.
Qed.

Lemma StronglySorted_lookup_lt {A} (R : A -> A -> Prop) (l : list A)
    (i j : nat) (x y : A) :
  StronglySorted R l -> (i < j)%nat ->
  l !! i = Some x -> l !! j = Some y -> R x y.
Proof.
  intros Hsorted. revert i j.
  induction Hsorted as [|z l Hl IH Hall]; intros i j Hij Hi Hj; [done|].
  destruct j as [|j]; [lia|]. simpl in Hj.
  destruct i as [|i]; simpl in Hi.
  - injection Hi as ->.
    rewrite Forall_forall in Hall. apply Hall.
    by eapply list_elem_of_lookup_2.
  - apply (IH i j); [lia|done..].
Qed.

(** ** Renderer *)

Lemma float_of_int_raises (n : Z) (e : exn) :
  Num.float_of_int n = inl e -> e = OverflowError.
Proof.
  unfold Num.float_of_int. destruct (Num.float_of_Z n); congruence.
Qed.

Lemma mul_float_raises (a : number) (x : spec_float) (e : exn) :
  Num.mul_float a x = inl e -> e = OverflowError.
Proof.
  destruct a as [n|y]; simpl; [|done].
  destruct (Num.float_of_int n) eqn:E; [|done].
  intros [= <-]. by eapply float_of_int_raises.
Qed.

Lemma py_mul_raises (a b : number) (e : exn) :
  Num.py_mul a b = inl e -> e = OverflowError.
Proof.
  destruct a as [m|x], b as [n|y]; simpl; try done.
  - destruct (Num.float_of_int m) eqn:E; [|done].
    intros [= <-]. by eapply float_of_int_raises.
  - destruct (Num.float_of_int n) eqn:E; [|done].
    intros [= <-]. by eapply float_of_int_raises.
Qed.

Lemma price_labels_raises (p : gmap string number) (e : exn) :
  price_labels p = inl e -> e = OverflowError.
Proof.
  unfold price_labels. destruct (Num.eqb _ _); [done|].
  repeat lazymatch goal with
  | |- bind_exn ?r _ = inl _ -> _ =>
      let E := fresh "E" in
      destruct r eqn:E; cbn [bind_exn];
      [intros [= <-]; first [by eapply mul_float_raises | by eapply py_mul_raises]|]
  end.
  done.
Qed.

Lemma render_row_raises (pricing : gmap string (gmap string number))
    (m : model_record) (e : exn) :
  render_row pricing m = inl e -> e = OverflowError.
Proof.
  rewrite render_row_labels.
  destruct (price_labels _) eqn:E; cbn [bind_exn]; [|done].
  intros [= <-]. by eapply price_labels_raises.
Qed.

Lemma render_rows_raises (pricing : gmap string (gmap string number))
    (rows : list string) (models : list model_record) (e : exn) :
  render_rows pricing rows models = inl e -> e = OverflowError.
Proof.
  revert rows. induction models as [|m rest IH]; intros rows; simpl; [done|].
  destruct (render_row pricing m) eqn:E; cbn [bind_exn].
  - intros [= <-]. by eapply render_row_raises.
  - apply IH.
Qed.

(** The loop appends exactly the row of each model, in order. *)
Lemma render_rows_returns (pricing : gmap string (gmap string number))
    (rows : list string) (models : list model_record) (result : list string) :
  render_rows pricing rows models = inr result <->
  exists new,
    result = rows ++ new
    /\ Forall2 (fun m row => render_row pricing m = inr row) models new.
Proof.
  revert rows. induction models as [|m rest IH]; intros rows; simpl.
  - split.
    + intros [= <-]. exists []. by rewrite app_nil_r.
    + intros (new & -> & Hnew). inversion Hnew. by rewrite app_nil_r.
  - destruct (render_row pricing m) as [e|row] eqn:E; cbn [bind_exn].
    + split; [done|]. intros (new & _ & Hnew). inversion Hnew; congruence.
    + rewrite IH. split.
      * intros (new & -> & Hnew). exists (row :: new).
        split; [by rewrite <- app_assoc | by constructor].
      * intros (new & -> & Hnew).
        inversion Hnew as [|? row' ? new' Hrow Hrest]; subst.
        assert (row' = row) as -> by congruence.
        exists new'. split; [by rewrite <- app_assoc | done].
Qed.

Lemma float_of_int_0 : Num.float_of_int 0 = inr (S754_zero false).
Proof. reflexivity. Qed.

Lemma float_of_int_1 :
  Num.float_of_int 1 = inr (S754_finite false 4503599627370496 (-52)).
Proof. reflexivity. Qed.

Lemma price_labels_total (p : gmap string number) :
  float_ratios p -> exists labels, price_labels p = inr labels.
Proof.
  intros Hfloat. unfold price_labels.
  destruct (Num.eqb _ _); [by eexists|].
  assert (Hratio : dict_get p "model_ratio" (PyInt 0) = PyInt 0
                   \/ exists x, dict_get p "model_ratio" (PyInt 0) = PyFloat x).
  { unfold dict_get. destruct (p !! "model_ratio") as [a|] eqn:E; [|by left].
    right. specialize (Hfloat "model_ratio" a (or_introl eq_refl) E).
    destruct a; [done | by eexists]. }
  assert (Hcomp : dict_get p "completion_ratio" (PyInt 1) = PyInt 1
                   \/ exists x, dict_get p "completion_ratio" (PyInt 1) = PyFloat x).
  { unfold dict_get. destruct (p !! "completion_ratio") as [a|] eqn:E; [|by left].
    right. specialize (Hfloat "completion_ratio" a (or_intror eq_refl) E).
    destruct a; [done | by eexists]. }
  destruct Hratio as [-> | [x ->]], Hcomp as [-> | [y ->]];
    unfold Num.mul_float, Num.py_mul, Num.mul_float;
    rewrite ?float_of_int_0, ?float_of_int_1; cbn [bind_exn];
    rewrite ?float_of_int_0, ?float_of_int_1; cbn [bind_exn];
    by eexists.
Qed.

Lemma build_pricing_lookup (pricing_data : list pricing_record)
    (model_id : string) (p : gmap string number) :
  build_pricing pricing_data !! model_id = Some p ->
  exists entry, entry ∈ pricing_data /\ fields entry = p.
Proof.
  unfold build_pricing.
  assert (Hgen : forall acc : gmap string (gmap string number),
    foldl (fun pricing p => <[model_name p := fields p]> pricing) acc pricing_data
      !! model_id = Some p ->
    acc !! model_id = Some p
    \/ exists entry, entry ∈ pricing_data /\ fields entry = p).
  { induction pricing_data as [|entry rest IH]; intros acc; simpl; [by left|].
    intros Hlookup. destruct (IH _ Hlookup) as [Hacc | (entry' & Hin & Heq)].
    - destruct (decide (model_name entry = model_id)) as [<-|Hne].
      + rewrite lookup_insert_eq in Hacc. injection Hacc as <-.
        right. exists entry. split; [by left | done].
      + rewrite lookup_insert_ne in Hacc by done. by left.
    - right. exists entry'. split; [by right | done]. }
  intros Hlookup. destruct (Hgen ∅ Hlookup) as [Hempty | Hentry]; [|done].
  by rewrite lookup_empty in Hempty.
Qed.

Lemma render_rows_total (pricing_data : list pricing_record)
    (rows : list string) (models : list model_record) :
  Forall (fun entry => float_ratios (fields entry)) pricing_data ->
  exists result, render_rows (build_pricing pricing_data) rows models = inr result.
Proof.
  intros Hfloat. revert rows.
  induction models as [|m rest IH]; intros rows; simpl; [by eexists|].
  rewrite render_row_labels.
  destruct (price_labels_total (dict_get (build_pricing pricing_data) (m_id m) ∅))
    as [labels ->]; [|cbn [bind_exn]; apply IH].
  unfold dict_get.
  destruct (build_pricing pricing_data !! m_id m) as [p|] eqn:E; simpl.
  - apply build_pricing_lookup in E as (entry & Hin & <-).
    rewrite Forall_forall in Hfloat. by apply Hfloat.
  - intros key a _ Hlookup. by rewrite lookup_empty in Hlookup.
Qed.

(** ** The run *)

(** [main], step by step: the first exception ends the run with the
    world as it was; a completed run writes the document and prints. *)
Lemma main_run (w : world) :
  main w
  = match models_response w with
    | Raises e => (inl e, w)
    | Returns models_data =>
        match pricing_response w with
        | Raises e => (inl e, w)
        | Returns pricing_data =>
            match render_rows (build_pricing pricing_data) []
                    (sort_models models_data) with
            | inl e => (inl e, w)
            | inr rows =>
                (inr tt, world_after w (length (sort_models models_data)) rows)
            end
        end
    end.
Proof.
  unfold main, bind, fetch_models, fetch_pricing.
  destruct (models_response w) as [e|models_data]; [done|].
  destruct (pricing_response w) as [e|pricing_data]; [done|].
  destruct (render_rows _ _ _) as [e|rows]; reflexivity.
Qed.

Lemma render_row_absent (pricing_data : list pricing_record) (m : model_record) :
  Forall (fun entry => model_name entry <> m_id m) pricing_data ->
  render_row (build_pricing pricing_data) m = inr (row_with m ("Free", "Free")).
Proof.
  intros Hall. rewrite render_row_labels. unfold dict_get.
  by rewrite (build_pricing_absent _ _ Hall).
Qed.

(** C1: the rendered table has exactly one row per entry of the model
    list's [data] array, in the order of the sorted list, which is a
    rearrangement of the array; an entry that no pricing entry names
    has its row too.  The run renders the table unless a product of
    ratios raises [OverflowError], which float ratios never do. *)
Theorem one_row_per_model (w : world)
    (models_data : list model_record) (pricing_data : list pricing_record) :
  models_response w = Returns models_data ->
  pricing_response w = Returns pricing_data ->
  let pricing := build_pricing pricing_data in
  let models := sort_models models_data in
  models ≡ₚ models_data
  /\ match render_rows pricing [] models with
     | inr rows =>
         main w = (inr tt, world_after w (length models_data) rows)
         /\ length rows = length models_data
         /\ Forall2 (fun m row => render_row pricing m = inr row) models rows
     | inl e => e = OverflowError /\ main w = (inl OverflowError, w)
     end
  /\ (forall m, m ∈ models_data ->
        Forall (fun entry => model_name entry <> m_id m) pricing_data ->
        render_row pricing m = inr (row_with m ("Free", "Free")))
  /\ (Forall (fun entry => float_ratios (fields entry)) pricing_data ->
      exists rows, render_rows pricing [] models = inr rows).
Proof.
  intros Hmodels Hpricing pricing models.
  split; [apply sort_models_perm|].
  split; [|split].
  - rewrite main_run, Hmodels, Hpricing. fold pricing models.
    destruct (render_rows pricing [] models) as [e|rows] eqn:E.
    + apply render_rows_raises in E. by subst.
    + apply render_rows_returns in E as (new & -> & Hnew). simpl.
      pose proof (Forall2_length _ _ _ Hnew) as Hlen.
      unfold models in *. rewrite sort_models_length in *.
      by rewrite Hlen.
  - intros m _ Hall. by apply render_row_absent.
  - intros Hfloat. by apply render_rows_total.
Qed.

(** C7: of any two rows of the rendered table, the earlier one has the
    provider label that is first in lexical order when the two labels
    differ, and the identifier that is first (or the same) when the
    labels are equal; the provider label is that of [detect_provider]. *)
Theorem rows_ascend_by_provider_then_id
    (pricing : gmap string (gmap string number))
    (models_data : list model_record) (rows : list string)
    (i j : nat) (row_i row_j : string) :
  render_rows pricing [] (sort_models models_data) = inr rows ->
  (i < j)%nat ->
  rows !! i = Some row_i ->
  rows !! j = Some row_j ->
  exists m_i m_j,
    m_i ∈ models_data /\ m_j ∈ models_data
    /\ render_row pricing m_i = inr row_i
    /\ render_row pricing m_j = inr row_j
    /\ let provider_i := detect_provider (m_id m_i) (m_owned_by m_i) in
       let provider_j := detect_provider (m_id m_j) (m_owned_by m_j) in
       (provider_i <> provider_j -> String.ltb provider_i provider_j = true)
       /\ (provider_i = provider_j -> String.leb (m_id m_i) (m_id m_j) = true).
Proof.
  intros Hrows Hij Hi Hj.
  apply render_rows_returns in Hrows as (new & -> & Hnew). simpl in Hi, Hj.
  destruct (Forall2_lookup_r _ _ _ _ _ Hnew Hi) as (m_i & Hmi & Hrow_i).
  destruct (Forall2_lookup_r _ _ _ _ _ Hnew Hj) as (m_j & Hmj & Hrow_j).
  exists m_i, m_j.
  assert (Hin : forall k m, sort_models models_data !! k = Some m ->
                            m ∈ models_data).
  { intros k m Hk. rewrite <- (sort_models_perm models_data).
    by eapply list_elem_of_lookup_2. }
  repeat split; eauto.
  - intros Hne.
    destruct (StronglySorted_lookup_lt model_le _ i j m_i m_j
                (sort_models_sorted models_data) Hij Hmi Hmj)
      as [Hlt | [Heq _]]; done.
  - intros Heq.
    destruct (StronglySorted_lookup_lt model_le _ i j m_i m_j
                (sort_models_sorted models_data) Hij Hmi Hmj)
      as [Hlt | [_ Hle]]; [|done].
    simpl in Hlt. apply string_ltb_leb in Hlt as [_ Hne]. done.
Qed.

(** A run that raises leaves the world as it found it. *)
Lemma main_raises_unchanged (w : world) (e : exn) :
  (main w).1 = inl e -> (main w).2 = w.
Proof.
  rewrite main_run.
  destruct (models_response w); [done|].
  destruct (pricing_response w); [done|].
  by destruct (render_rows _ _ _).
Qed.

(** What a run leaves in the output file: the old content, or the
    document of a table that was rendered in full. *)
Lemma main_output_file (w : world) :
  match (main w).1 with
  | inl _ => output_file (main w).2 = output_file w
  | inr _ =>
      exists models_data pricing_data rows,
        models_response w = Returns models_data
        /\ pricing_response w = Returns pricing_data
        /\ render_rows (build_pricing pricing_data) [] (sort_models models_data)
           = inr rows
        /\ output_file (main w).2
           = Some (document (length (sort_models models_data))
                     (Str.join newline rows))
  end.
Proof.
  rewrite main_run.
  destruct (models_response w) as [e|models_data]; [done|].
  destruct (pricing_response w) as [e|pricing_data]; [done|].
  destruct (render_rows _ _ _) as [e|rows] eqn:E; [done|].
  by exists models_data, pricing_data, rows.
Qed.

(** C8: when a fetch or a decode raises, for the model list or for the
    pricing list, the run ends with that exception and the output file
    keeps its previous content; and whenever the output file changes,
    the run completed and the file holds the whole document, written
    once from the assembled string. *)
Theorem failed_fetch_keeps_output (w : world) :
  (forall e, models_response w = Raises e -> main w = (inl e, w))
  /\ (forall e models_data,
        models_response w = Returns models_data ->
        pricing_response w = Raises e ->
        main w = (inl e, w))
  /\ (forall e, (main w).1 = inl e ->
        output_file (main w).2 = output_file w /\ (main w).2 = w)
  /\ (output_file (main w).2 <> output_file w ->
      (main w).1 = inr tt
      /\ exists count rows,
          length rows = count
          /\ output_file (main w).2
             = Some (document count (Str.join newline rows))).
Proof.
  split; [|split; [|split]].
  - intros e Hmodels. by rewrite main_run, Hmodels.
  - intros e models_data Hmodels Hpricing.
    by rewrite main_run, Hmodels, Hpricing.
  - intros e Hraises.
    by rewrite (main_raises_unchanged w e Hraises).
  - intros Hchanged. pose proof (main_output_file w) as Hfile.
    destruct (main w).1 as [e|[]] eqn:E; [done|].
    split; [done|].
    destruct Hfile as (models_data & pricing_data & rows & _ & _ & Hrows & Hfile).
    exists (length (sort_models models_data)), rows. split; [|done].
    apply render_rows_returns in Hrows as (new & -> & Hnew).
    symmetry. exact (Forall2_length _ _ _ Hnew).
Qed.

(** C9: the outcome of a run and the content it writes depend on the
    two responses only, not on the previous content of the file or on
    anything else in the world, and a second run over the same
    responses writes the same content again. *)
Theorem output_determined_by_responses (w1 w2 : world) :
  models_response w1 = models_response w2 ->
  pricing_response w1 = pricing_response w2 ->
  (main w1).1 = (main w2).1
  /\ ((main w1).1 = inr tt ->
      output_file (main w1).2 = output_file (main w2).2
      /\ output_file (main w1).2 <> None)
  /\ (main (main w1).2).1 = (main w1).1
  /\ output_file (main (main w1).2).2 = output_file (main w1).2.
Proof.
  intros Hmodels Hpricing.
  assert (Hsame : forall w w' : world,
    models_response w = models_response w' ->
    pricing_response w = pricing_response w' ->
    (main w).1 = (main w').1
    /\ ((main w).1 = inr tt ->
        output_file (main w).2 = output_file (main w').2
        /\ output_file (main w).2 <> None)).
  { intros w w' Hm Hp. rewrite !main_run, <- Hm, <- Hp.
    destruct (models_response w); [done|].
    destruct (pricing_response w); [done|].
    by destruct (render_rows _ _ _). }
  assert (Hkept : models_response (main w1).2 = models_response w1
                  /\ pricing_response (main w1).2 = pricing_response w1).
  { rewrite main_run.
    destruct (models_response w1) eqn:E1; [cbn [snd]; auto|].
    destruct (pricing_response w1) eqn:E2; [cbn [snd]; auto|].
    destruct (render_rows _ _ _); cbn [snd]; [auto|].
    unfold world_after. cbn [models_response pricing_response]. auto. }
  destruct Hkept as [Hkm Hkp].
  split; [by apply Hsame|]. split; [by apply Hsame|].
  destruct (Hsame (main w1).2 w1 Hkm Hkp) as [Houtcome Hcontent].
  split; [done|].
  destruct (main w1).1 as [e|[]] eqn:E.
  - rewrite Houtcome in *.
    by rewrite (main_raises_unchanged (main w1).2 e).
  - by apply Hcontent.
Qed.

(** ** The embedding on concrete values *)

(** * Further properties of the code *)

(** ** The pricing index *)

Lemma build_pricing_lookup_last (pricing_data : list pricing_record)
    (model_id : string) :
  build_pricing pricing_data !! model_id
  = fields <$> last (filter (fun entry => model_name entry = model_id)
                       pricing_data).
Proof.
  unfold build_pricing.
  assert (Hgen : forall acc : gmap string (gmap string number),
    foldl (fun pricing p => <[model_name p := fields p]> pricing) acc pricing_data
      !! model_id
    = match last (filter (fun entry => model_name entry = model_id)
                    pricing_data) with
      | Some entry => Some (fields entry)
      | None => acc !! model_id
      end).
  { induction pricing_data as [|entry rest IH]; intros acc; simpl; [done|].
    rewrite IH. destruct (decide (model_name entry = model_id)) as [Heq|Hne].
    - rewrite filter_cons_True by done. rewrite last_cons.
      destruct (last _); [done|]. by rewrite <- Heq, lookup_insert_eq.
    - rewrite filter_cons_False by done.
      destruct (last _); [done|]. by rewrite lookup_insert_ne. }
  rewrite Hgen. destruct (last _); [done|]. by rewrite lookup_empty.
Qed.

(** X1: the pricing index maps an identifier to the object of the last
    pricing entry of that name, and holds exactly the names that occur
    in the pricing list. *)
Theorem pricing_index_last_entry_wins (pricing_data : list pricing_record)
    (model_id : string) :
  build_pricing pricing_data !! model_id
  = fields <$> last (filter (fun entry => model_name entry = model_id)
                       pricing_data)
  /\ (is_Some (build_pricing pricing_data !! model_id)
      <-> model_id ∈ map model_name pricing_data)
  /\ (forall entry,
        build_pricing (pricing_data ++ [entry]) !! model_name entry
        = Some (fields entry)).
Proof.
  split; [apply build_pricing_lookup_last|]. split.
  - rewrite build_pricing_lookup_last, fmap_is_Some. split.
    + intros [entry Hlast]. apply last_Some_elem_of in Hlast.
      apply list_elem_of_filter in Hlast as [<- Hin].
      apply list_elem_of_fmap. by exists entry.
    + intros (entry & -> & Hin)%list_elem_of_fmap.
      assert (Hfilter : entry ∈ filter
                (fun entry' => model_name entry' = model_name entry) pricing_data)
        by by apply list_elem_of_filter.
      destruct (filter _ pricing_data) as [|x l] eqn:E.
      * by apply elem_of_nil in Hfilter.
      * rewrite last_cons. destruct (last l); by eexists.
  - intros entry. rewrite build_pricing_lookup_last, filter_app.
    rewrite filter_cons_True, filter_nil by done.
    by rewrite last_snoc.
Qed.

(** ** Rows and the pricing index *)

Lemma render_rows_ext (pricing1 pricing2 : gmap string (gmap string number))
    (rows : list string) (models : list model_record) :
  (forall m, m ∈ models -> pricing1 !! m_id m = pricing2 !! m_id m) ->
  render_rows pricing1 rows models = render_rows pricing2 rows models.
Proof.
  revert rows.
  induction models as [|m rest IH]; intros rows Hsame; simpl; [done|].
  assert (Hrow : render_row pricing1 m = render_row pricing2 m).
  { rewrite !render_row_labels. unfold dict_get.
    rewrite (Hsame m) by by left. done. }
  rewrite Hrow. destruct (render_row pricing2 m); cbn [bind_exn]; [done|].
  apply IH. intros m' Hin. apply Hsame. by right.
Qed.

Lemma outcome_run (w : world) (models_data : list model_record)
    (pricing_data : list pricing_record) :
  outcome (with_responses w models_data pricing_data)
  = match render_rows (build_pricing pricing_data) []
            (sort_models models_data) with
    | inl e => (inl e, output_file w)
    | inr rows =>
        (inr tt,
         Some (document (length (sort_models models_data))
                 (Str.join newline rows)))
    end.
Proof.
  unfold outcome. rewrite main_run.
  cbn [with_responses models_response pricing_response].
  by destruct (render_rows _ _ _).
Qed.

(** X2: pricing entries that name no model of the model list are
    ignored: leaving them out changes neither how the run ends nor the
    document it writes. *)
Theorem unlisted_pricing_entries_ignored (w : world)
    (models_data : list model_record) (pricing_data : list pricing_record) :
  outcome (with_responses w models_data pricing_data)
  = outcome (with_responses w models_data
               (filter (fun entry => model_name entry ∈ map m_id models_data)
                  pricing_data)).
Proof.
  rewrite !outcome_run.
  rewrite (render_rows_ext (build_pricing pricing_data)
             (build_pricing
                (filter (fun entry => model_name entry ∈ map m_id models_data)
                   pricing_data))); [done|].
  intros m Hin. rewrite !build_pricing_lookup_last, list_filter_filter.
  do 2 f_equal. apply list_filter_iff. intros entry. split; [|by intros [? _]].
  intros Hname. split; [done|]. rewrite Hname.
  apply list_elem_of_fmap. exists m. split; [done|].
  by rewrite <- (sort_models_perm models_data).
Qed.

Lemma filter_name_at_most_one (pricing_data : list pricing_record)
    (model_id : string) :
  NoDup (map model_name pricing_data) ->
  (length (filter (fun entry => model_name entry = model_id) pricing_data)
   <= 1)%nat.
Proof.
  induction pricing_data as [|entry rest IH]; simpl; [lia|].
  intros [Hnotin Hrest]%NoDup_cons.
  destruct (decide (model_name entry = model_id)) as [Heq|Hne].
  - rewrite filter_cons_True by done. simpl.
    destruct (filter _ rest) as [|entry' l] eqn:E; [simpl; lia|].
    exfalso. apply Hnotin.
    assert (Hin : entry' ∈ filter (fun e => model_name e = model_id) rest)
      by (rewrite E; by left).
    apply list_elem_of_filter in Hin as [Hname Hin].
    apply list_elem_of_fmap. exists entry'. split; [congruence|done].
  - rewrite filter_cons_False by done. by apply IH.
Qed.

(** X3: when the names of the pricing list are pairwise distinct, the
    order of its entries does not matter: every rearrangement gives the
    same pricing index, hence the same outcome. *)
Theorem pricing_order_irrelevant (w : world) (models_data : list model_record)
    (pricing_data pricing_data' : list pricing_record) :
  NoDup (map model_name pricing_data) ->
  pricing_data ≡ₚ pricing_data' ->
  build_pricing pricing_data = build_pricing pricing_data'
  /\ outcome (with_responses w models_data pricing_data)
     = outcome (with_responses w models_data pricing_data').
Proof.
  intros Hnodup Hperm.
  assert (Hindex : build_pricing pricing_data = build_pricing pricing_data').
  { apply map_eq. intros model_id. rewrite !build_pricing_lookup_last.
    pose proof (filter_name_at_most_one pricing_data model_id Hnodup) as Hlen.
    assert (Hfilter :
      filter (fun entry => model_name entry = model_id) pricing_data
      ≡ₚ filter (fun entry => model_name entry = model_id) pricing_data')
      by by rewrite Hperm.
    destruct (filter _ pricing_data) as [|entry [|entry' l]].
    - apply Permutation_nil in Hfilter. by rewrite Hfilter.
    - apply Permutation_singleton_l in Hfilter. by rewrite Hfilter.
    - simpl in Hlen. lia. }
  split; [done|]. by rewrite !outcome_run, Hindex.
Qed.

(** ** Sorting, further *)

Lemma key_leb_refl (k : string * string) : key_leb k k = true.
Proof.
  unfold key_leb, String.leb. by rewrite !string_compare_refl.
Qed.

Lemma key_le_antisym (k1 k2 : string * string) :
  key_le k1 k2 -> key_le k2 k1 -> k1 = k2.
Proof.
  destruct k1 as [p1 i1], k2 as [p2 i2]. unfold key_le. simpl.
  intros [H12 | [-> H12]] [H21 | [E21 H21]].
  - apply string_ltb_leb in H12 as [H12 Hne], H21 as [H21 _].
    destruct Hne. by apply String.leb_antisym.
  - subst. by apply string_ltb_leb in H12 as [_ ?].
  - by apply string_ltb_leb in H21 as [_ ?].
  - f_equal. by apply String.leb_antisym.
Qed.

Lemma insert_by_key_filter (k : string * string) (m : model_record)
    (sorted : list model_record) :
  filter (fun m' => sort_key m' = k) (insert_by_key m sorted)
  = filter (fun m' => sort_key m' = k) (m :: sorted).
Proof.
  induction sorted as [|m' rest IH]; simpl; [done|].
  destruct (key_leb (sort_key m) (sort_key m')) eqn:E; [done|].
  rewrite (filter_cons _ m'), IH, !(filter_cons _ m), (filter_cons _ m').
  destruct (decide (sort_key m' = k)) as [Hm'|Hm'],
           (decide (sort_key m = k)) as [Hm|Hm]; try done.
  by rewrite Hm, <- Hm', key_leb_refl in E.
Qed.

(** X4: the sort is stable: the models that share a sort key (the same
    provider label and the same identifier) keep the order they have in
    the model list. *)
Theorem sort_models_stable (k : string * string) (models : list model_record) :
  filter (fun m => sort_key m = k) (sort_models models)
  = filter (fun m => sort_key m = k) models.
Proof.
  induction models as [|m rest IH]; simpl; [done|].
  by rewrite insert_by_key_filter, !filter_cons, IH.
Qed.

Lemma sort_models_sorted_id (models : list model_record) :
  StronglySorted model_le models -> sort_models models = models.
Proof.
  induction 1 as [|m rest Hrest IH Hall]; simpl; [done|].
  rewrite IH. destruct rest as [|m' rest']; simpl; [done|].
  inversion Hall as [|? ? Hle _]; subst.
  apply key_leb_le in Hle. by rewrite Hle.
Qed.

(** X5: a model list that is already in ascending order of (provider
    label, identifier) is left as it is, so sorting twice is sorting
    once. *)
Theorem sort_models_keeps_sorted (models : list model_record) :
  (StronglySorted model_le models -> sort_models models = models)
  /\ sort_models (sort_models models) = sort_models models.
Proof.
  split; [apply sort_models_sorted_id|].
  apply sort_models_sorted_id, sort_models_sorted.
Qed.

Lemma NoDup_fmap_eq {A B} (f : A -> B) (l : list A) (x y : A) :
  NoDup (map f l) -> x ∈ l -> y ∈ l -> f x = f y -> x = y.
Proof.
  induction l as [|z l IH]; simpl; [by intros _ ?%elem_of_nil|].
  intros [Hnotin Hl]%NoDup_cons Hx Hy Hf.
  apply elem_of_cons in Hx as [->|Hx], Hy as [->|Hy]; [done| | |by apply IH].
  - destruct Hnotin. rewrite Hf. apply list_elem_of_fmap. eauto.
  - destruct Hnotin. rewrite <- Hf. apply list_elem_of_fmap. eauto.
Qed.

(** X6: when the identifiers of the model list are pairwise distinct,
    the order in which the gateway lists the models does not matter:
    every rearrangement sorts to the same list, hence gives the same
    outcome. *)
Theorem model_order_irrelevant (w : world)
    (models_data models_data' : list model_record)
    (pricing_data : list pricing_record) :
  NoDup (map m_id models_data) ->
  models_data ≡ₚ models_data' ->
  sort_models models_data = sort_models models_data'
  /\ outcome (with_responses w models_data pricing_data)
     = outcome (with_responses w models_data' pricing_data).
Proof.
  intros Hnodup Hperm.
  assert (Hsorted : sort_models models_data = sort_models models_data').
  { apply (StronglySorted_unique_strong model_le);
      [|apply sort_models_sorted..|by rewrite !sort_models_perm].
    intros m1 m2 Hm1 Hm2 H12 H21.
    rewrite sort_models_perm in Hm1. rewrite sort_models_perm, <- Hperm in Hm2.
    pose proof (key_le_antisym _ _ H12 H21) as Hkey.
    apply (NoDup_fmap_eq m_id models_data); [done..|].
    by injection Hkey. }
  split; [done|]. by rewrite !outcome_run, Hsorted.
Qed.

(** ** Runs that raise, and the empty model list *)

Lemma render_rows_raises_exists (pricing : gmap string (gmap string number))
    (rows : list string) (models : list model_record) :
  (exists e, render_rows pricing rows models = inl e)
  <-> Exists (fun m => exists e, render_row pricing m = inl e) models.
Proof.
  revert rows. induction models as [|m rest IH]; intros rows; simpl.
  - split; [by intros [e ?] | by intros ?%Exists_nil].
  - rewrite Exists_cons.
    destruct (render_row pricing m) as [e|row] eqn:E; cbn [bind_exn].
    + split; [intros _; left|]; by eexists.
    + rewrite IH. split; [by right|]. by intros [[e ?]|?].
Qed.

(** X7: the rows of models priced per request never raise, whatever
    their ratios.  The loop over the sorted models raises exactly when
    the row of some listed model raises, and then with [OverflowError];
    the run then ends with that exception before the output file is
    touched, nothing written and nothing printed. *)
Theorem one_overflowing_row_aborts (w : world)
    (models_data : list model_record) (pricing_data : list pricing_record) :
  let pricing := build_pricing pricing_data in
  let w' := with_responses w models_data pricing_data in
  (forall m,
      Num.eqb (dict_get (dict_get pricing (m_id m) ∅) "quota_type" (PyInt 0))
        (PyInt 1) = true ->
      exists row, render_row pricing m = inr row)
  /\ ((exists e, render_rows pricing [] (sort_models models_data) = inl e)
      <-> exists m e, m ∈ models_data /\ render_row pricing m = inl e)
  /\ (forall e,
        render_rows pricing [] (sort_models models_data) = inl e ->
        e = OverflowError)
  /\ ((exists m e, m ∈ models_data /\ render_row pricing m = inl e) ->
      main w' = (inl OverflowError, w')).
Proof.
  intros pricing w'.
  assert (Hloop :
    (exists e, render_rows pricing [] (sort_models models_data) = inl e)
    <-> exists m e, m ∈ models_data /\ render_row pricing m = inl e).
  { rewrite render_rows_raises_exists, Exists_exists. split.
    - intros (m & Hin & e & He). exists m, e.
      by rewrite sort_models_perm in Hin.
    - intros (m & e & Hin & He). exists m.
      rewrite sort_models_perm. eauto. }
  split; [|split; [done|split]].
  - intros m Hq. rewrite render_row_labels.
    rewrite (price_labels_request _ Hq). by eexists.
  - intros e. apply render_rows_raises.
  - intros [e He]%Hloop. subst w' pricing. rewrite main_run.
    cbn [with_responses models_response pricing_response].
    rewrite He. by rewrite (render_rows_raises _ _ _ _ He).
Qed.

(** X8: with an empty model list the run completes whatever the
    pricing list holds: the document has an empty table and the count
    0, and the message names 0 models. *)
Theorem empty_model_list_completes (w : world)
    (pricing_data : list pricing_record) :
  models_response w = Returns [] ->
  pricing_response w = Returns pricing_data ->
  main w = (inr tt, world_after w 0 [])
  /\ output_file (main w).2 = Some (document 0 "")
  /\ stdout (main w).2
     = stdout w ++ ["Updated " +:+ output_path w +:+ " with 0 models"].
Proof.
  intros Hmodels Hpricing.
  assert (Hrun : main w = (inr tt, world_after w 0 []))
    by by rewrite main_run, Hmodels, Hpricing.
  rewrite Hrun. done.
Qed.

(** ** Classifier, further *)

Lemma collect_categories_app (categories tags1 tags2 : list string) :
  collect_categories categories (tags1 ++ tags2)
  = collect_categories (collect_categories categories tags1) tags2.
Proof.
  revert categories.
  induction tags1 as [|ep rest IH]; intros categories; simpl; [done|].
  by destruct (bool_decide _).
Qed.

Lemma collect_categories_known (categories tags : list string) :
  Forall (fun ep => category_of ep ∈ categories) tags ->
  collect_categories categories tags = categories.
Proof.
  induction 1 as [|ep rest Hep _ IH]; simpl; [done|].
  by rewrite bool_decide_eq_true_2.
Qed.

(** X9: the labels [detect_category] joins are pairwise distinct and are
    exactly the labels of the given tags; tags whose labels the earlier
    tags already gave add nothing, so a repeated tag list reads as the
    list itself. *)
Theorem detect_category_labels_distinct (endpoint_types : list string) :
  NoDup (collect_categories [] endpoint_types)
  /\ (forall label,
        label ∈ collect_categories [] endpoint_types
        <-> label ∈ map category_of endpoint_types)
  /\ (forall more,
        Forall (fun ep => category_of ep ∈ map category_of endpoint_types) more ->
        detect_category (endpoint_types ++ more) = detect_category endpoint_types)
  /\ detect_category (endpoint_types ++ endpoint_types)
     = detect_category endpoint_types.
Proof.
  assert (Hlist : collect_categories [] endpoint_types
                  = dedup_first (map category_of endpoint_types)).
  { rewrite collect_categories_dedup. simpl. apply filter_all.
    intros y. apply not_elem_of_nil. }
  assert (Hmore : forall more,
    Forall (fun ep => category_of ep ∈ map category_of endpoint_types) more ->
    detect_category (endpoint_types ++ more) = detect_category endpoint_types).
  { intros more Hknown. unfold detect_category.
    rewrite collect_categories_app. f_equal.
    apply collect_categories_known.
    eapply Forall_impl; [exact Hknown|]. intros ep Hep. simpl in Hep.
    by rewrite Hlist, dedup_first_elem_of. }
  split; [rewrite Hlist; apply dedup_first_NoDup|].
  split; [intros label; by rewrite Hlist, dedup_first_elem_of|].
  split; [done|].
  apply Hmore. apply Forall_forall. intros ep Hep.
  apply list_elem_of_fmap. by exists ep.
Qed.

Lemma startswith_comparable (s p1 p2 : string) :
  Str.startswith s p1 = true -> Str.startswith s p2 = true ->
  Str.startswith p1 p2 = true \/ Str.startswith p2 p1 = true.
Proof.
  unfold Str.startswith. revert p1 p2.
  induction s as [|c s IH]; intros [|c1 p1] [|c2 p2]; simpl;
    try discriminate; auto.
  destruct (ascii_dec c1 c) as [->|]; [|discriminate].
  destruct (ascii_dec c2 c) as [->|]; [|discriminate].
  destruct (ascii_dec c c); [|done]. apply IH.
Qed.

Lemma provider_by_prefix_head (items : list (string * string)) (model_id : string) :
  provider_by_prefix items model_id = snd <$> head (matching_items items model_id).
Proof.
  unfold matching_items.
  induction items as [|[prefix provider] rest IH]; simpl; [done|].
  rewrite filter_cons. simpl.
  destruct (Str.startswith model_id prefix) eqn:E.
  - by rewrite decide_True.
  - by rewrite decide_False.
Qed.

Lemma provider_prefixes_incomparable :
  forallb (fun item1 : string * string =>
    forallb (fun item2 : string * string =>
      bool_decide (item1 = item2) || negb (Str.startswith item1.1 item2.1))
      PROVIDER_MAP)
    PROVIDER_MAP = true.
Proof. vm_compute. reflexivity. Qed.

Lemma provider_match_unique (model_id : string) (item1 item2 : string * string) :
  item1 ∈ PROVIDER_MAP -> item2 ∈ PROVIDER_MAP ->
  Str.startswith model_id item1.1 = true ->
  Str.startswith model_id item2.1 = true ->
  item1 = item2.
Proof.
  intros Hin1 Hin2 H1 H2.
  pose proof provider_prefixes_incomparable as Hall.
  rewrite forallb_forall in Hall.
  assert (Hpair : forall a b : string * string,
    a ∈ PROVIDER_MAP -> b ∈ PROVIDER_MAP ->
    Str.startswith a.1 b.1 = true -> a = b).
  { intros a b Ha Hb Hab.
    apply list_elem_of_In in Ha, Hb.
    pose proof (Hall a Ha) as Hrow. rewrite forallb_forall in Hrow.
    specialize (Hrow b Hb). rewrite Hab in Hrow.
    rewrite orb_false_r in Hrow. by apply bool_decide_eq_true in Hrow. }
  destruct (startswith_comparable _ _ _ H1 H2) as [H|H]; [|symmetry]; by apply Hpair.
Qed.

(** X10: no prefix of [PROVIDER_MAP] is a prefix of another, so at most
    one item matches any identifier, and the order in which the table is
    iterated never changes the result of the prefix loop. *)
Theorem provider_table_order_irrelevant (model_id : string) :
  (forall item1 item2,
      item1 ∈ PROVIDER_MAP -> item2 ∈ PROVIDER_MAP ->
      (exists rest, model_id = item1.1 +:+ rest) ->
      (exists rest, model_id = item2.1 +:+ rest) ->
      item1 = item2)
  /\ (forall items,
        items ≡ₚ PROVIDER_MAP ->
        provider_by_prefix items model_id
        = provider_by_prefix PROVIDER_MAP model_id).
Proof.
  split.
  - intros item1 item2 Hin1 Hin2 H1%startswith_app H2%startswith_app.
    by eapply provider_match_unique.
  - intros items Hperm. rewrite !provider_by_prefix_head.
    assert (Hmatch : matching_items items model_id
                     ≡ₚ matching_items PROVIDER_MAP model_id)
      by (unfold matching_items; by rewrite Hperm).
    assert (Hone : forall x y l,
      matching_items PROVIDER_MAP model_id <> x :: y :: l).
    { intros x y l Heq.
      assert (Hnodup : NoDup (matching_items PROVIDER_MAP model_id)).
      { apply NoDup_filter.
        apply (bool_decide_unpack (NoDup PROVIDER_MAP)). vm_compute. exact I. }
      rewrite Heq in Hnodup.
      assert (Hx : x ∈ matching_items PROVIDER_MAP model_id)
        by (rewrite Heq; by left).
      assert (Hy : y ∈ matching_items PROVIDER_MAP model_id)
        by (rewrite Heq; right; by left).
      apply list_elem_of_filter in Hx as [Hx1 Hx2], Hy as [Hy1 Hy2].
      assert (x = y) as -> by by eapply provider_match_unique.
      apply NoDup_cons in Hnodup as [Hnotin _]. apply Hnotin. by left. }
    destruct (matching_items PROVIDER_MAP model_id) as [|x [|y l]] eqn:E.
    + apply Permutation_nil_r in Hmatch. by rewrite Hmatch.
    + apply Permutation_singleton_r in Hmatch. by rewrite Hmatch.
    + by destruct (Hone x y l).
Qed.

(** ** The fallback label *)

Ltac ascii_cases c := destruct c as [[] [] [] [] [] [] [] []].

Lemma recase_idempotent (b : bool) (c : ascii) :
  let recase c := if b then Str.to_lower c else Str.to_upper c in
  recase (recase c) = recase c /\ Str.is_cased (recase c) = Str.is_cased c
  /\ Ascii.eqb (recase c) "-" = Ascii.eqb c "-".
Proof. destruct b; ascii_cases c; repeat split. Qed.

Lemma title_from_idempotent (b : bool) (s : string) :
  Str.title_from b (Str.title_from b s) = Str.title_from b s.
Proof.
  revert b. induction s as [|c s IH]; intros b; simpl; [done|].
  destruct (recase_idempotent b c) as (Hidem & Hcased & _). simpl in *.
  by rewrite Hidem, Hcased, IH.
Qed.

Lemma title_from_length (b : bool) (s : string) :
  String.length (Str.title_from b s) = String.length s.
Proof. revert b. induction s as [|c s IH]; intros b; simpl; by rewrite ?IH. Qed.

Lemma title_from_hyphens (b : bool) (s : string) :
  count_char "-" (Str.title_from b s) = count_char "-" s.
Proof.
  revert b. induction s as [|c s IH]; intros b; simpl; [done|].
  destruct (recase_idempotent b c) as (_ & _ & Hhyphen). simpl in Hhyphen.
  by rewrite Hhyphen, IH.
Qed.

Lemma replace_char_length (old new : ascii) (s : string) :
  String.length (Str.replace_char old new s) = String.length s.
Proof. induction s as [|c s IH]; simpl; by rewrite ?IH. Qed.

Lemma replace_char_gone (old new : ascii) (s : string) :
  old <> new -> count_char old (Str.replace_char old new s) = O.
Proof.
  intros Hne. induction s as [|c s IH]; simpl; [done|]. rewrite IH.
  destruct (Ascii.eqb_spec c old) as [->|Hc].
  - by rewrite (proj2 (Ascii.eqb_neq new old)).
  - by rewrite (proj2 (Ascii.eqb_neq c old)).
Qed.

Lemma replace_char_absent (old new : ascii) (s : string) :
  count_char old s = O -> Str.replace_char old new s = s.
Proof.
  induction s as [|c s IH]; simpl; [done|].
  destruct (Ascii.eqb c old); [done|]. intros Hs. by rewrite IH.
Qed.

(** X11: the fallback label [s.replace("-", " ").title()] has the
    length of [s] and no hyphen, and labelling a label again leaves it
    as it is. *)
Theorem fallback_label_shape (s : string) :
  String.length (Str.spaced_title s) = String.length s
  /\ count_char "-" (Str.spaced_title s) = O
  /\ Str.spaced_title (Str.spaced_title s) = Str.spaced_title s.
Proof.
  unfold Str.spaced_title, Str.title.
  assert (Hgone : count_char "-"
            (Str.title_from false (Str.replace_char "-" " " s)) = O)
    by by rewrite title_from_hyphens, replace_char_gone.
  split; [by rewrite title_from_length, replace_char_length|].
  split; [done|].
  rewrite (replace_char_absent "-" " " _ Hgone).
  apply title_from_idempotent.
Qed.

(** ** The price formatter, further *)

Lemma eqb_float_zero (value : spec_float) :
  Num.eqb (PyFloat value) (PyInt 0)
  = match value with S754_zero _ => true | _ => false end.
Proof.
  unfold Num.eqb. rewrite compare_float_zero.
  by destruct value as [s|[]| |[] m e].
Qed.

(** X12: [format_price] writes "Free" for the two zeros, 0.0 and -0.0,
    and for nothing else: every other value, however small, gets a
    string that starts with the dollar sign. *)
Theorem free_only_for_zero (value : spec_float) :
  (format_price value = "Free" <-> exists s, value = S754_zero s)
  /\ (format_price value = "Free"
      \/ exists rest, format_price value = String "$" rest).
Proof.
  unfold format_price. rewrite eqb_float_zero.
  destruct value as [s|s| |s m e]; [split; [split; eauto | by left]|..];
    (split; [split; [|by intros [? ?]] | right]);
    repeat match goal with
           | |- context [if ?b then _ else _] => destruct b
           end;
    by eauto.
Qed.

Lemma ltb_negative_small (value : spec_float) :
  Num.ltb (PyFloat value) (PyInt 0) = true ->
  Num.ltb (PyFloat value) (PyFloat float_0_01) = true
  /\ (value = S754_infinity true \/ exists m e, value = S754_finite true m e).
Proof.
  unfold Num.ltb at 1. rewrite compare_float_zero, float_0_01_finite.
  destruct value as [s|[]| |[] m e]; try discriminate; intros _.
  - split; [reflexivity | by left].
  - split; [|right; eauto].
    unfold Num.ltb, Num.compare. cbn [Num.xvalue_of Num.xvalue_of_float Num.xcompare].
    by rewrite dyadic_compare_neg_pos.
Qed.

(** X13: a negative value is not refused: it takes the four-decimal
    branch, so a finite negative number is written as "$-", digits, a
    point and four digits, and minus infinity as "$-inf"; not-a-number
    falls through to the two-decimal branch and is written "$nan". *)
Theorem negative_price_four_decimals (value : spec_float) :
  (Num.ltb (PyFloat value) (PyInt 0) = true ->
     format_price value = "$" +:+ Num.format_f 4 value
     /\ (value = S754_infinity true \/
         exists whole frac,
           format_price value = "$-" +:+ whole +:+ "." +:+ frac
           /\ whole <> "" /\ all_digits whole = true
           /\ all_digits frac = true /\ String.length frac = 4%nat))
  /\ format_price (S754_infinity true) = "$-inf"
  /\ format_price S754_nan = "$nan".
Proof.
  split; [|split; reflexivity].
  intros Hneg. destruct (ltb_negative_small value Hneg) as [Hsmall Hshape].
  assert (Hprice : format_price value = "$" +:+ Num.format_f 4 value).
  { unfold format_price. fold float_0_01. rewrite eqb_float_zero, Hsmall.
    by destruct Hshape as [-> | (m & e & ->)]. }
  split; [done|].
  destruct Hshape as [-> | (m & e & ->)]; [by left|right].
  destruct (fixed_digits_shape 3 (Num.scaled_round 4 m e))
    as (whole & frac & Heq & Hrest); [apply scaled_round_nonneg|].
  exists whole, frac. split; [|done].
  rewrite Hprice. unfold Num.format_f, Num.sign_str. by rewrite Heq.
Qed.

Lemma dyadic_compare_scale (m1 e1 m2 e2 k : Z) :
  k <= e1 -> k <= e2 ->
  Num.dyadic_compare m1 e1 m2 e2 = (m1 * 2 ^ (e1 - k) ?= m2 * 2 ^ (e2 - k)).
Proof.
  intros H1 H2. unfold Num.dyadic_compare.
  set (mn := Z.min e1 e2).
  assert (Hmn : k <= mn) by (unfold mn; lia).
  assert (Hle : mn <= e1 /\ mn <= e2) by (unfold mn; lia).
  replace (e1 - k) with ((e1 - mn) + (mn - k)) by lia.
  replace (e2 - k) with ((e2 - mn) + (mn - k)) by lia.
  rewrite !Z.pow_add_r, !Z.mul_assoc by lia.
  assert (Hpos : 0 < 2 ^ (mn - k)) by (apply Z.pow_pos_nonneg; lia).
  destruct (Z.compare_spec (m1 * 2 ^ (e1 - mn)) (m2 * 2 ^ (e2 - mn))) as [Heq|Hlt|Hgt];
    symmetry.
  - rewrite Heq. apply Z.compare_refl.
  - apply Z.compare_lt_iff. nia.
  - apply Z.compare_gt_iff. nia.
Qed.

Lemma float_0_00004_finite :
  float_0_00004 = S754_finite false 5902958103587057 (-67).
Proof. reflexivity. Qed.

Lemma round_half_even_zero (n d : Z) :
  0 <= n -> 2 * n < d -> Num.round_half_even n d = 0.
Proof.
  intros Hn Hd. unfold Num.round_half_even.
  rewrite Z.div_small, Z.mod_small by lia.
  by rewrite (proj2 (Z.compare_lt_iff _ _) Hd).
Qed.

Lemma below_0_00004_lt (m : positive) (e : Z) :
  Num.ltb (PyFloat (S754_finite false m e)) (PyFloat float_0_00004) = true ->
  Z.pos m * 2 ^ (e - Z.min e (-67))
  < 5902958103587057 * 2 ^ (-67 - Z.min e (-67)).
Proof.
  rewrite float_0_00004_finite. unfold Num.ltb, Num.compare.
  cbn [Num.xvalue_of Num.xvalue_of_float Num.xcompare].
  destruct (Num.dyadic_compare _ _ _ _) eqn:E; try discriminate. intros _.
  rewrite (dyadic_compare_scale _ _ _ _ (Z.min e (-67))) in E by lia.
  by apply Z.compare_lt_iff.
Qed.

Lemma below_0_00004_rounds_to_zero (m : positive) (e : Z) :
  Num.ltb (PyFloat (S754_finite false m e)) (PyFloat float_0_00004) = true ->
  Num.scaled_round 4 m e = 0.
Proof.
  intros Hlt%below_0_00004_lt.
  unfold Num.scaled_round, Num.pow2.
  change (10 ^ Z.of_nat 4) with 10000.
  destruct (Z.le_gt_cases e (-67)) as [He|He].
  - rewrite Z.min_l in Hlt by lia.
    replace (e - e) with 0 in Hlt by lia. rewrite Z.pow_0_r in Hlt.
    rewrite (Z.max_r e 0), (Z.max_l (- e) 0) by lia.
    replace (- e) with ((-67 - e) + 67) by lia.
    rewrite Z.pow_add_r by lia. change (2 ^ 67) with 147573952589676412928.
    assert (0 < 2 ^ (-67 - e)) by (apply Z.pow_pos_nonneg; lia).
    apply round_half_even_zero; nia.
  - rewrite Z.min_r in Hlt by lia.
    replace (-67 - -67) with 0 in Hlt by lia. rewrite Z.pow_0_r in Hlt.
    replace (e - -67) with (e + 67) in Hlt by lia.
    destruct (Z.le_gt_cases 0 e) as [Hpos|Hneg].
    + assert (2 ^ 67 <= 2 ^ (e + 67)) by (apply Z.pow_le_mono_r; lia).
      change (2 ^ 67) with 147573952589676412928 in *. nia.
    + rewrite (Z.max_r e 0), (Z.max_l (- e) 0) by lia.
      assert (HA : 0 < 2 ^ (e + 67)) by (apply Z.pow_pos_nonneg; lia).
      assert (HB : 0 < 2 ^ (- e)) by (apply Z.pow_pos_nonneg; lia).
      assert (HAB : 2 ^ (e + 67) * 2 ^ (- e) = 147573952589676412928).
      { rewrite <- Z.pow_add_r by lia. by replace (e + 67 + - e) with 67 by lia. }
      apply round_half_even_zero; nia.
Qed.

Lemma below_0_00004_below_0_01 (m : positive) (e : Z) :
  Num.ltb (PyFloat (S754_finite false m e)) (PyFloat float_0_00004) = true ->
  Num.ltb (PyFloat (S754_finite false m e)) (PyFloat float_0_01) = true.
Proof.
  intros Hlt%below_0_00004_lt.
  rewrite float_0_01_finite. unfold Num.ltb, Num.compare.
  cbn [Num.xvalue_of Num.xvalue_of_float Num.xcompare].
  rewrite (dyadic_compare_scale _ _ _ _ (Z.min e (-67))) by lia.
  replace (-59 - Z.min e (-67)) with ((-67 - Z.min e (-67)) + 8) by lia.
  rewrite Z.pow_add_r by lia. change (2 ^ 8) with 256.
  assert (0 < 2 ^ (-67 - Z.min e (-67))) by (apply Z.pow_pos_nonneg; lia).
  destruct (Z.compare_spec (Z.pos m * 2 ^ (e - Z.min e (-67)))
              (5764607523034235 * (2 ^ (-67 - Z.min e (-67)) * 256))).
  - nia.
  - done.
  - nia.
Qed.

(** X14: a positive value below 0.00004 is not "Free": its four
    decimals round to zero and it is written "$0.0000". *)
Theorem tiny_price_written_as_zero_dollars (value : spec_float) :
  Num.gtb (PyFloat value) (PyInt 0) = true ->
  Num.ltb (PyFloat value) (PyFloat float_0_00004) = true ->
  format_price value = "$0.0000".
Proof.
  intros Hgt Hlt.
  assert (Hfinite : exists m e, value = S754_finite false m e).
  { unfold Num.gtb in Hgt. rewrite compare_float_zero in Hgt.
    destruct value as [s|[]| |[] m e]; try discriminate. eauto. }
  destruct Hfinite as (m & e & ->).
  destruct (format_price_small _ Hgt (below_0_00004_below_0_01 m e Hlt))
    as [-> _].
  unfold Num.format_f. by rewrite (below_0_00004_rounds_to_zero m e Hlt).
Qed.

(** ** Products with [BASE_UNIT] and with the default completion ratio *)

Lemma base_unit_finite : BASE_UNIT = S754_finite false 4503599627370496 (-51).
Proof. reflexivity. Qed.

Lemma digits2_shift (m : positive) (n : nat) :
  Z.pos (digits2_pos (Nat.iter n xO m)) = Z.pos (digits2_pos m) + Z.of_nat n.
Proof.
  induction n as [|n IH]; simpl Nat.iter; [lia|].
  cbn [digits2_pos]. rewrite Pos2Z.inj_succ, IH. lia.
Qed.

Lemma digits2_lower_bound (m : positive) :
  2 ^ (Z.pos (digits2_pos m) - 1) <= Z.pos m.
Proof.
  induction m as [m IH|m IH|]; cbn [digits2_pos]; [| |done].
  - rewrite Pos2Z.inj_succ.
    replace (Z.succ (Z.pos (digits2_pos m)) - 1)
      with (Z.succ (Z.pos (digits2_pos m) - 1)) by lia.
    rewrite Z.pow_succ_r by lia. lia.
  - rewrite Pos2Z.inj_succ.
    replace (Z.succ (Z.pos (digits2_pos m)) - 1)
      with (Z.succ (Z.pos (digits2_pos m) - 1)) by lia.
    rewrite Z.pow_succ_r by lia. lia.
Qed.

Lemma shr_52 (m : positive) (E : Z) :
  shr {| shr_m := Z.pos (Nat.iter 52 xO m); shr_r := false; shr_s := false |} E 52
  = ({| shr_m := Z.pos m; shr_r := false; shr_s := false |}, E + 52).
Proof. reflexivity. Qed.

Lemma shr_51 (m : positive) (E : Z) :
  shr {| shr_m := Z.pos (Nat.iter 52 xO m); shr_r := false; shr_s := false |} E 51
  = ({| shr_m := Z.pos m~0; shr_r := false; shr_s := false |}, E + 51).
Proof. reflexivity. Qed.

Lemma valid_finite_canonical (s : bool) (m : positive) (e : Z) :
  valid_binary Num.prec Num.emax (S754_finite s m e) = true ->
  Z.max (Z.pos (digits2_pos m) + e - 53) (-1074) = e /\ e <= 971.
Proof.
  unfold valid_binary, bounded, canonical_mantissa, fexp, emin, Num.prec, Num.emax.
  intros [Hcanon Hbound]%andb_true_iff.
  apply Z.eqb_eq in Hcanon. apply Z.leb_le in Hbound. lia.
Qed.

(** The product of a finite float with 2.0, computed. *)
Lemma float_mul_base_unit (s : bool) (m : positive) (e : Z) :
  valid_binary Num.prec Num.emax (S754_finite s m e) = true ->
  Num.float_mul (S754_finite s m e) BASE_UNIT
  = if Z.pos (digits2_pos m) =? 53
    then if e + 1 <=? 971 then S754_finite s m (e + 1) else S754_infinity s
    else S754_finite s m~0 e.
Proof.
  intros [Hcanon Hbound]%valid_finite_canonical.
  rewrite base_unit_finite. unfold Num.float_mul, SFmul.
  rewrite xorb_false_r, Pos.mul_comm.
  change (4503599627370496 * m)%positive with (Nat.iter 52 xO m).
  unfold binary_round_aux, shr_fexp, Zdigits2, fexp, emin, Num.prec, Num.emax.
  rewrite digits2_shift. cbn [shr_record_of_loc].
  destruct (Z.eqb_spec (Z.pos (digits2_pos m)) 53) as [Hd|Hd].
  - replace ((Z.pos (digits2_pos m) + Z.of_nat 52 + (e + -51) - 53)
              `max` (3 - 1024 - 53) - (e + -51)) with 52 by lia.
    rewrite shr_52. cbn [shr_m loc_of_shr_record round_nearest_even].
    replace ((Z.pos (digits2_pos m) + (e + -51 + 52) - 53)
              `max` (3 - 1024 - 53) - (e + -51 + 52)) with 0 by lia.
    cbn [shr shr_m]. replace (e + -51 + 52) with (e + 1) by lia. done.
  - replace ((Z.pos (digits2_pos m) + Z.of_nat 52 + (e + -51) - 53)
              `max` (3 - 1024 - 53) - (e + -51)) with 51 by lia.
    rewrite shr_51. cbn [shr_m loc_of_shr_record round_nearest_even digits2_pos].
    rewrite Pos2Z.inj_succ.
    replace ((Z.succ (Z.pos (digits2_pos m)) + (e + -51 + 51) - 53)
              `max` (3 - 1024 - 53) - (e + -51 + 51)) with 0 by lia.
    cbn [shr shr_m]. replace (e + -51 + 51) with e by lia.
    by rewrite (proj2 (Z.leb_le e (1024 - 53))) by lia.
Qed.

(** The product of a float with 1.0, the float of the default
    completion ratio. *)
Lemma float_mul_one (x : spec_float) :
  valid_binary Num.prec Num.emax x = true ->
  Num.float_mul x (S754_finite false 4503599627370496 (-52)) = x.
Proof.
  destruct x as [[]|[]| |s m e]; try reflexivity.
  intros [Hcanon Hbound]%valid_finite_canonical.
  unfold Num.float_mul, SFmul.
  rewrite xorb_false_r, Pos.mul_comm.
  change (4503599627370496 * m)%positive with (Nat.iter 52 xO m).
  unfold binary_round_aux, shr_fexp, Zdigits2, fexp, emin, Num.prec, Num.emax.
  rewrite digits2_shift. cbn [shr_record_of_loc].
  replace ((Z.pos (digits2_pos m) + Z.of_nat 52 + (e + -52) - 53)
            `max` (3 - 1024 - 53) - (e + -52)) with 52 by lia.
  rewrite shr_52. cbn [shr_m loc_of_shr_record round_nearest_even].
  replace ((Z.pos (digits2_pos m) + (e + -52 + 52) - 53)
            `max` (3 - 1024 - 53) - (e + -52 + 52)) with 0 by lia.
  cbn [shr shr_m]. replace (e + -52 + 52) with e by lia.
  by rewrite (proj2 (Z.leb_le e (1024 - 53))) by lia.
Qed.

Lemma digits2_upper_bound (m : positive) :
  Z.pos m < 2 ^ Z.pos (digits2_pos m).
Proof.
  induction m as [m IH|m IH|]; cbn [digits2_pos]; [| |done];
    rewrite Pos2Z.inj_succ, Z.pow_succ_r by lia; lia.
Qed.

(** A canonical finite float is at least 2^1023 exactly when its
    exponent is the largest one. *)
Lemma geb_2_1023 (m : positive) (e : Z) :
  Z.max (Z.pos (digits2_pos m) + e - 53) (-1074) = e -> e <= 971 ->
  Num.geb (PyFloat (S754_finite false m e)) (PyInt (2 ^ 1023)) = (e =? 971).
Proof.
  intros Hcanon Hbound.
  pose proof (digits2_upper_bound m) as Hup.
  pose proof (digits2_lower_bound m) as Hlow.
  assert (Hd : Z.pos (digits2_pos m) <= 53) by lia.
  assert (Hm : Z.pos m < 2 ^ 53).
  { eapply Z.lt_le_trans; [exact Hup|]. apply Z.pow_le_mono_r; lia. }
  unfold Num.geb, Num.compare.
  cbn [Num.xvalue_of Num.xvalue_of_float Num.xcompare].
  rewrite (dyadic_compare_scale _ _ _ _ (Z.min e 0)) by lia.
  destruct (Z.eqb_spec e 971) as [->|Hne].
  - assert (Z.pos (digits2_pos m) = 53) as Hd53 by lia.
    rewrite Hd53 in Hlow. change (53 - 1) with 52 in Hlow.
    change (Z.min 971 0) with 0. change (0 - 0) with 0.
    change (971 - 0) with 971. rewrite Z.pow_0_r, Z.mul_1_r.
    replace (2 ^ 1023) with (2 ^ 52 * 2 ^ 971)
      by (rewrite <- Z.pow_add_r by lia; reflexivity).
    assert (0 < 2 ^ 971) by (apply Z.pow_pos_nonneg; lia).
    destruct (Z.compare_spec (Z.pos m * 2 ^ 971) (2 ^ 52 * 2 ^ 971));
      [done | nia | done].
  - assert (He : e <= 970) by lia.
    assert (Hlt : Z.pos m * 2 ^ (e - Z.min e 0)
                  < 2 ^ 1023 * 2 ^ (0 - Z.min e 0)).
    { destruct (Z.le_gt_cases 0 e) as [Hpos|Hneg].
      - rewrite Z.min_r by lia. change (0 - 0) with 0.
        replace (e - 0) with e by lia. rewrite Z.pow_0_r, Z.mul_1_r.
        replace (2 ^ 1023) with (2 ^ 53 * 2 ^ 970)
          by (rewrite <- Z.pow_add_r by lia; reflexivity).
        assert (2 ^ e <= 2 ^ 970) by (apply Z.pow_le_mono_r; lia).
        assert (0 < 2 ^ e) by (apply Z.pow_pos_nonneg; lia).
        assert (0 < 2 ^ 53) by (apply Z.pow_pos_nonneg; lia).
        nia.
      - rewrite Z.min_l by lia. replace (e - e) with 0 by lia.
        rewrite Z.pow_0_r, Z.mul_1_r.
        replace (2 ^ 1023) with (2 ^ 53 * 2 ^ 970)
          by (rewrite <- Z.pow_add_r by lia; reflexivity).
        assert (0 < 2 ^ 970) by (apply Z.pow_pos_nonneg; lia).
        assert (0 < 2 ^ (0 - e)) by (apply Z.pow_pos_nonneg; lia).
        assert (0 < 2 ^ 53) by (apply Z.pow_pos_nonneg; lia).
        nia. }
    by rewrite (proj2 (Z.compare_lt_iff _ _) Hlt).
Qed.

(** X15: for a float ratio the input price [ratio * BASE_UNIT] never
    raises and is exactly twice the ratio: the product never rounds.
    Zeros, infinities and not-a-number stay what they are.  The price is
    infinite exactly when the ratio is, in absolute value, 2^1023 or
    more, and then has the sign of the ratio. *)
Theorem input_price_exactly_twice_ratio (ratio : spec_float) :
  valid_binary Num.prec Num.emax ratio = true ->
  Num.mul_float (PyFloat ratio) BASE_UNIT
  = inr (Num.float_mul ratio BASE_UNIT)
  /\ match ratio, Num.float_mul ratio BASE_UNIT with
     | S754_finite s m e, S754_finite s' m' e' =>
         s' = s /\ e <= e' /\ Z.pos m' * 2 ^ (e' - e) = 2 * Z.pos m
     | S754_finite s m e, S754_infinity s' =>
         s' = s /\ 2 ^ 1023 <= Z.pos m * 2 ^ e
     | S754_finite _ _ _, _ => False
     | _, product => product = ratio
     end
  /\ ((exists s', Num.float_mul ratio BASE_UNIT = S754_infinity s')
      <-> Num.geb (PyFloat (SFabs ratio)) (PyInt (2 ^ 1023)) = true).
Proof.
  intros Hvalid. split; [reflexivity|].
  destruct ratio as [[]|[]| |s m e];
    try (split; [reflexivity|]; split; [by intros [s' ?] | done]);
    try (split; [reflexivity|]; split; [done | by eexists]).
  rewrite (float_mul_base_unit s m e Hvalid).
  apply valid_finite_canonical in Hvalid as [Hcanon Hbound].
  cbn [SFabs]. rewrite (geb_2_1023 m e Hcanon Hbound).
  destruct (Z.eqb_spec (Z.pos (digits2_pos m)) 53) as [Hd|Hd].
  - destruct (Z.leb_spec (e + 1) 971) as [He|He].
    + split; [repeat split; [lia|]; replace (e + 1 - e) with 1 by lia; lia|].
      split; [by intros [s' ?]|]. intros ?%Z.eqb_eq. lia.
    + assert (e = 971) as -> by lia.
      split; [|split; [done | by eexists]].
      split; [done|].
      assert (Hm : 2 ^ 52 <= Z.pos m).
      { pose proof (digits2_lower_bound m) as Hlow.
        by replace (Z.pos (digits2_pos m) - 1) with 52 in Hlow by lia. }
      change (2 ^ 1023) with (2 ^ 52 * 2 ^ 971).
      apply Z.mul_le_mono_nonneg_r; [by apply Z.pow_nonneg|done].
  - split; [repeat split; [lia|]; replace (e - e) with 0 by lia;
            rewrite Z.pow_0_r; lia|].
    split; [by intros [s' ?]|]. intros ?%Z.eqb_eq. lia.
Qed.

(** X16: without a completion ratio (it defaults to the integer 1) the
    product [ratio * comp_ratio] is the ratio itself, so the output
    label of a token-priced row is its input label. *)
Theorem default_completion_ratio_repeats_input (p : gmap string number) :
  p !! "completion_ratio" = None ->
  Num.eqb (dict_get p "quota_type" (PyInt 0)) (PyInt 1) = false ->
  valid_number (dict_get p "model_ratio" (PyInt 0)) ->
  price_labels p
  = bind_exn (Num.mul_float (dict_get p "model_ratio" (PyInt 0)) BASE_UNIT)
      (fun input_price => inr (format_price input_price, format_price input_price)).
Proof.
  intros Hcomp Hq Hvalid. rewrite (price_labels_token p Hq).
  unfold dict_get at 2. rewrite Hcomp. cbn [default].
  unfold token_labels.
  destruct (dict_get p "model_ratio" (PyInt 0)) as [n|x].
  - cbn [Num.py_mul]. rewrite Z.mul_1_r. cbn [bind_exn].
    by destruct (Num.mul_float (PyInt n) BASE_UNIT).
  - cbn [Num.mul_float Num.py_mul bind_exn]. rewrite float_of_int_1.
    cbn [bind_exn Num.mul_float]. simpl in Hvalid.
    by rewrite (float_mul_one x Hvalid).
Qed.

(** ** The layout of the table *)

Lemma count_char_app (c : ascii) (s1 s2 : string) :
  count_char c (s1 +:+ s2) = (count_char c s1 + count_char c s2)%nat.
Proof. induction s1 as [|c' s1 IH]; simpl; [done|]. rewrite IH. lia. Qed.

Lemma clean_app (s1 s2 : string) : clean (s1 +:+ s2) = clean s1 && clean s2.
Proof.
  induction s1 as [|c s1 IH]; simpl; [done|]. by rewrite IH, andb_assoc.
Qed.

Lemma clean_count (c : ascii) (s : string) :
  breaks c = true -> clean s = true -> count_char c s = O.
Proof.
  intros Hc. induction s as [|c' s IH]; simpl; [done|].
  intros [Hc' Hs]%andb_true_iff. rewrite (IH Hs).
  destruct (Ascii.eqb_spec c' c) as [->|]; [|done].
  by rewrite Hc in Hc'.
Qed.

Lemma digit_not_breaking (c : ascii) : is_digit c = true -> breaks c = false.
Proof. ascii_cases c; done. Qed.

Lemma all_digits_clean (s : string) : all_digits s = true -> clean s = true.
Proof.
  induction s as [|c s IH]; simpl; [done|].
  intros [Hc Hs]%andb_true_iff. by rewrite (digit_not_breaking c Hc), IH.
Qed.

Lemma substring_clean (n m : nat) (s : string) :
  clean s = true -> clean (String.substring n m s) = true.
Proof.
  revert n m. induction s as [|c s IH]; intros n m Hs.
  - by destruct n, m.
  - simpl in Hs. apply andb_true_iff in Hs as [Hc Hs].
    destruct n as [|n]; [destruct m as [|m]|]; simpl; [done| |by apply IH].
    by rewrite Hc, IH.
Qed.

Lemma zeros_clean (n : nat) : clean (Num.zeros n) = true.
Proof. induction n as [|n IH]; simpl; [done|]. by rewrite IH. Qed.

Lemma str_of_nonneg_clean (n : Z) : clean (Num.str_of_nonneg n) = true.
Proof. apply all_digits_clean, str_of_nonneg_digits. Qed.

Lemma str_of_int_clean (n : Z) : clean (Num.str_of_int n) = true.
Proof.
  unfold Num.str_of_int, NilZero.string_of_int.
  assert (Huint : forall d, clean (NilZero.string_of_uint d) = true).
  { intros d. apply all_digits_clean. unfold NilZero.string_of_uint.
    destruct d; first [reflexivity | apply (string_of_uint_digits (_ _))]. }
  destruct (Z.to_int n) as [d|d]; [apply Huint|].
  change (clean (String "-" (NilZero.string_of_uint d)) = true).
  simpl. apply Huint.
Qed.

Lemma sign_str_clean (s : bool) : clean (Num.sign_str s) = true.
Proof. by destruct s. Qed.

Lemma format_f_clean (k : nat) (x : spec_float) :
  clean (Num.format_f (S k) x) = true.
Proof.
  assert (Hfixed : forall n, 0 <= n -> clean (Num.fixed_digits (S k) n) = true).
  { intros n Hn.
    destruct (fixed_digits_shape k n Hn)
      as (whole & frac & -> & _ & Hwhole & Hfrac & _).
    rewrite !clean_app, (all_digits_clean whole), (all_digits_clean frac); done. }
  destruct x as [s|s| |s m e]; unfold Num.format_f;
    rewrite ?clean_app, ?sign_str_clean; try done.
  - by apply Hfixed.
  - apply Hfixed, scaled_round_nonneg.
Qed.

Lemma repr_layout_clean (digits : string) (decpt : Z) :
  clean digits = true -> clean (Num.repr_layout digits decpt) = true.
Proof.
  intros Hdigits. unfold Num.repr_layout, Num.substring_from.
  repeat match goal with
         | |- context [if ?b then _ else _] => destruct b
         end;
    rewrite ?clean_app, ?substring_clean, ?zeros_clean, ?str_of_nonneg_clean,
      ?Hdigits; done.
Qed.

Lemma float_repr_clean (x : spec_float) : clean (Num.float_repr x) = true.
Proof.
  destruct x as [s|s| |s m e]; unfold Num.float_repr;
    try (rewrite clean_app, sign_str_clean; done); [done|].
  destruct (Num.shortest_digits m e) as [d q].
  rewrite clean_app, sign_str_clean. apply repr_layout_clean, str_of_nonneg_clean.
Qed.

Lemma format_price_clean (value : spec_float) : clean (format_price value) = true.
Proof.
  unfold format_price.
  repeat match goal with
         | |- context [if ?b then _ else _] => destruct b
         end;
    rewrite ?clean_app, ?format_f_clean; done.
Qed.

Lemma price_labels_clean (p : gmap string number) (labels : string * string) :
  price_labels p = inr labels ->
  clean labels.1 = true /\ clean labels.2 = true.
Proof.
  unfold price_labels. destruct (Num.eqb _ _).
  - intros [= <-]. split; [|done]. cbn [fst].
    destruct (Num.gtb _ _); [|done].
    rewrite !clean_app. unfold Num.py_str.
    destruct (dict_get p "model_price" (PyInt 0));
      by rewrite ?str_of_int_clean, ?float_repr_clean.
  - repeat lazymatch goal with
    | |- bind_exn ?r _ = inr _ -> _ =>
        destruct r; cbn [bind_exn]; [discriminate|]
    end.
    intros [= <-]. split; apply format_price_clean.
Qed.

Lemma recase_breaks (b : bool) (c : ascii) :
  breaks (if b then Str.to_lower c else Str.to_upper c) = breaks c.
Proof. destruct b; ascii_cases c; reflexivity. Qed.

Lemma title_from_replace_clean (b : bool) (s : string) :
  clean s = true ->
  clean (Str.title_from b (Str.replace_char "-" " " s)) = true.
Proof.
  revert b. induction s as [|c s IH]; intros b; [done|].
  cbn [Str.title_from Str.replace_char clean].
  intros [Hc Hs]%andb_true_iff.
  rewrite recase_breaks, (IH _ Hs), andb_true_r.
  destruct (Ascii.eqb c "-"); [done|]. exact Hc.
Qed.

Lemma spaced_title_clean (s : string) :
  clean s = true -> clean (Str.spaced_title s) = true.
Proof. apply title_from_replace_clean. Qed.

Lemma replace_char_clean (old new : ascii) (s : string) :
  breaks new = false -> clean s = true ->
  clean (Str.replace_char old new s) = true.
Proof.
  intros Hnew. induction s as [|c s IH]; simpl; [done|].
  intros [Hc Hs]%andb_true_iff. rewrite (IH Hs), andb_true_r.
  destruct (Ascii.eqb c old); [by rewrite Hnew | exact Hc].
Qed.

Lemma provider_by_prefix_label (items : list (string * string))
    (model_id provider : string) :
  provider_by_prefix items model_id = Some provider ->
  provider ∈ map snd items.
Proof.
  induction items as [|[prefix label] rest IH]; simpl; [done|].
  destruct (Str.startswith model_id prefix).
  - intros [= ->]. by left.
  - intros Hrest. right. by apply IH.
Qed.

Lemma provider_labels_clean :
  forallb (fun item : string * string => clean item.2) PROVIDER_MAP = true.
Proof. reflexivity. Qed.

Lemma detect_provider_clean (model_id owned_by : string) :
  clean owned_by = true -> clean (detect_provider model_id owned_by) = true.
Proof.
  intros Howner. unfold detect_provider.
  destruct (provider_by_prefix PROVIDER_MAP model_id) as [provider|] eqn:E.
  - apply provider_by_prefix_label in E.
    apply list_elem_of_fmap in E as ([prefix label] & -> & Hin).
    pose proof provider_labels_clean as Hall. rewrite forallb_forall in Hall.
    apply (Hall (prefix, label)). by apply list_elem_of_In.
  - destruct (String.eqb _ _); [done|]. destruct (String.eqb _ _); [done|].
    by apply py_title_clean, replace_char_clean.
Qed.

Lemma row_line_count (c : ascii) (model_id provider input_str output_str : string) :
  count_char c (row_line model_id provider input_str output_str)
  = (count_char c "| `` |  |  |  |"
     + count_char c model_id + count_char c provider
     + count_char c input_str + count_char c output_str)%nat.
Proof.
  unfold row_line. rewrite !count_char_app.
  change (count_char c "| `` |  |  |  |")
    with (count_char c ("| `" +:+ "` | " +:+ " | " +:+ " | " +:+ " |")).
  rewrite !count_char_app. lia.
Qed.

Lemma join_newline_count (rows : list string) :
  Forall (fun row => count_char Str.nl row = O) rows ->
  count_char Str.nl (Str.join newline rows) = (length rows - 1)%nat.
Proof.
  unfold Str.join.
  induction 1 as [|row rest Hrow Hrest IH]; [done|].
  destruct rest as [|row' rest'].
  - simpl. by rewrite Hrow.
  - change (String.concat newline (row :: row' :: rest'))
      with (row +:+ newline +:+ String.concat newline (row' :: rest')).
    rewrite !count_char_app, Hrow, IH. simpl. lia.
Qed.

(** X17: nothing is escaped.  A row has the five pipes and two
    backticks of its frame plus whatever the identifier and the provider
    label bring in; the price labels never contain a pipe, a backtick or
    a newline.  So when no identifier and no owner of the model list
    contains such a character, every row has exactly five pipes and two
    backticks, and the table has exactly one line per model. *)
Theorem table_layout (pricing : gmap string (gmap string number))
    (models : list model_record) (rows : list string) :
  render_rows pricing [] models = inr rows ->
  Forall2 (fun m row =>
    forall c, breaks c = true ->
      count_char c row
      = (count_char c "| `` |  |  |  |" + count_char c (m_id m)
         + count_char c (detect_provider (m_id m) (m_owned_by m)))%nat)
    models rows
  /\ (Forall (fun m => clean (m_id m) = true /\ clean (m_owned_by m) = true)
        models ->
      Forall (fun row => count_char "|" row = 5%nat
                         /\ count_char "`" row = 2%nat
                         /\ count_char Str.nl row = O) rows
      /\ count_char Str.nl (Str.join newline rows) = (length models - 1)%nat).
Proof.
  intros Hrows. apply render_rows_returns in Hrows as (new & -> & Hnew).
  simpl.
  assert (Hcount : Forall2 (fun m row =>
    forall c, breaks c = true ->
      count_char c row
      = (count_char c "| `` |  |  |  |" + count_char c (m_id m)
         + count_char c (detect_provider (m_id m) (m_owned_by m)))%nat)
    models new).
  { eapply Forall2_impl; [exact Hnew|]. intros m row Hrow c Hc. simpl in Hrow.
    rewrite render_row_labels in Hrow.
    destruct (price_labels _) as [e|labels] eqn:E; [discriminate|].
    cbn [bind_exn] in Hrow. injection Hrow as <-.
    apply price_labels_clean in E as [Hin Hout].
    unfold row_with. rewrite row_line_count.
    rewrite (clean_count c _ Hc Hin), (clean_count c _ Hc Hout). lia. }
  split; [done|]. intros Hclean.
  assert (Hrows : Forall (fun row => count_char "|" row = 5%nat
                                     /\ count_char "`" row = 2%nat
                                     /\ count_char Str.nl row = O) new).
  { clear Hnew. induction Hcount as [|m row models' new' Hrow _ IH];
      [constructor|].
    apply Forall_cons in Hclean as [[Hid Howner] Hclean].
    constructor; [|by apply IH].
    pose proof (detect_provider_clean (m_id m) _ Howner) as Hprovider.
    rewrite !Hrow by done.
    rewrite !(clean_count _ (m_id m)), !(clean_count _ (detect_provider _ _));
      done. }
  split; [done|].
  rewrite join_newline_count.
  - by rewrite (Forall2_length _ _ _ Hnew).
  - eapply Forall_impl; [exact Hrows|]. by intros row (_ & _ & ?).
Qed.

(** ** Grouping *)

Lemma key_le_fst (k1 k2 : string * string) :
  key_le k1 k2 -> String.leb k1.1 k2.1 = true.
Proof.
  intros [Hlt | [-> _]].
  - by apply string_ltb_leb in Hlt as [? _].
  - unfold String.leb. by rewrite string_compare_refl.
Qed.

(** X18: the sorted list is grouped by provider: between two models of
    one provider label there is no model of another. *)
Theorem models_grouped_by_provider (models_data : list model_record)
    (i j k : nat) (m_i m_j m_k : model_record) :
  (i < j)%nat -> (j < k)%nat ->
  sort_models models_data !! i = Some m_i ->
  sort_models models_data !! j = Some m_j ->
  sort_models models_data !! k = Some m_k ->
  detect_provider (m_id m_i) (m_owned_by m_i)
  = detect_provider (m_id m_k) (m_owned_by m_k) ->
  detect_provider (m_id m_j) (m_owned_by m_j)
  = detect_provider (m_id m_i) (m_owned_by m_i).
Proof.
  intros Hij Hjk Hi Hj Hk Hsame.
  pose proof (sort_models_sorted models_data) as Hsorted.
  pose proof (StronglySorted_lookup_lt model_le _ i j m_i m_j Hsorted Hij Hi Hj)
    as Hle_ij%key_le_fst.
  pose proof (StronglySorted_lookup_lt model_le _ j k m_j m_k Hsorted Hjk Hj Hk)
    as Hle_jk%key_le_fst.
  simpl in Hle_ij, Hle_jk. rewrite <- Hsame in Hle_jk.
  by apply String.leb_antisym.
Qed.

(** The letter-wise title-casing keeps newlines, pipes and backticks as
    they are, as [py_title] is assumed to. *)
Lemma title_from_clean (b : bool) (s : string) :
  clean s = true -> clean (Str.title_from b s) = true.
Proof.
  revert b. induction s as [|c s IH]; intros b; [done|].
  cbn [Str.title_from clean]. intros [Hc Hs]%andb_true_iff.
  by rewrite recase_breaks, Hc, (IH _ Hs).
Qed.

End Pipeline.


(** * The theorems on concrete inputs *)

Lemma detect_provider_first_prefix_or_fallback_witness :
  detect_provider Str.title "gpt-4o-mini" "azure" = "OpenAI"
  /\ detect_provider Str.title "claude-3" "vertex-ai" = "Google"
  /\ detect_provider Str.title "claude-3" "aws-bedrock" = "Aws Bedrock".
Proof.
  assert (Hnone : Forall (fun item : string * string =>
                    ~ exists rest, "claude-3" = item.1 +:+ rest) PROVIDER_MAP)
    by (repeat constructor; simpl; intros [rest Hrest]; discriminate).
  split; [|split].
  - apply (proj1 (detect_provider_first_prefix_or_fallback Str.title
                    (fun s _ => eq_refl) "gpt-4o-mini" "azure")
             (take 8 PROVIDER_MAP) "gpt-" "OpenAI" (drop 9 PROVIDER_MAP)).
    + reflexivity.
    + repeat constructor; simpl; intros [rest Hrest]; discriminate.
    + by exists "4o-mini".
  - apply (proj1 (proj1 (proj2 (detect_provider_first_prefix_or_fallback
                                  Str.title (fun s _ => eq_refl)
                                  "claude-3" "vertex-ai")) Hnone)).
    reflexivity.
  - apply (proj2 (proj2 (proj2 (proj1 (proj2
             (detect_provider_first_prefix_or_fallback
                Str.title (fun s _ => eq_refl) "claude-3" "aws-bedrock"))
             Hnone)) ltac:(discriminate) ltac:(discriminate))).
    reflexivity.
Defined.

Lemma detect_category_maps_dedups_joins_witness :
  category_of Str.title "gemini" = "Chat"
  /\ category_of Str.title "text-embedding" = "Text Embedding".
Proof.
  split.
  - apply (proj1 (proj2 (detect_category_maps_dedups_joins Str.title
                           (fun s _ => eq_refl) []))).
    reflexivity.
  - apply (proj2 (proj1 (proj2 (proj2 (detect_category_maps_dedups_joins
                                         Str.title (fun s _ => eq_refl) [])))
                    "text-embedding" ltac:(reflexivity))).
    reflexivity.
Defined.

Lemma format_price_by_magnitude_witness :
  format_price (S754_zero true) = "Free"
  /\ dollar_decimals 4 (format_price float_0_005)
  /\ dollar_decimals 2 (format_price float_2_5).
Proof.
  split; [|split].
  - by apply (proj1 (format_price_by_magnitude (S754_zero true))).
  - apply (proj1 (proj2 (format_price_by_magnitude float_0_005)));
      reflexivity.
  - apply (proj1 (proj2 (proj2 (format_price_by_magnitude float_2_5))));
      [reflexivity | discriminate].
Defined.

Lemma token_pricing_for_quota_type_0_witness :
  render_row Str.title (build_pricing [gpt4o_pricing]) gpt4o_model
  = inr "| `gpt-4o` | OpenAI | $2.00 | $4.00 |"
  /\ render_row Str.title (build_pricing [gpt4o_pricing]) (ModelRecord "o1" "openai")
     = inr "| `o1` | OpenAI | Free | Free |".
Proof.
  split.
  - apply (proj2 (proj1 (token_pricing_for_quota_type_0 Str.title
                           (build_pricing [gpt4o_pricing]) gpt4o_model)
                   eq_refl)
             (S754_finite false 4503599627370496 (-51))
             (PyFloat (S754_finite false 4503599627370496 (-51)))
             (S754_finite false 4503599627370496 (-50)));
      reflexivity.
  - apply (proj1 (proj2 (proj2 (token_pricing_for_quota_type_0 Str.title
                                  (build_pricing [gpt4o_pricing])
                                  (ModelRecord "o1" "openai"))))
             [gpt4o_pricing]).
    repeat constructor. discriminate.
Defined.

Lemma request_pricing_for_quota_type_1_witness :
  render_row Str.title
    {[ "flux" := {[ "quota_type" := PyInt 1;
                    "model_price" := PyFloat (Num.decimal_literal 4 2) ]};
       "dall-e" := {[ "quota_type" := PyFloat float_1 ]} ]}
    (ModelRecord "flux" "bfl")
  = inr "| `flux` | Bfl | $0.04/req | - |".
Proof.
  rewrite (request_pricing_for_quota_type_1 Str.title _ (ModelRecord "flux" "bfl")
             {[ "quota_type" := PyInt 1;
                "model_price" := PyFloat (Num.decimal_literal 4 2) ]}
             (PyInt 1)) by reflexivity.
  reflexivity.
Defined.

Lemma token_pricing_unless_quota_type_1_witness :
  render_row Str.title
    {[ "m" := {[ "quota_type" := PyInt 2; "model_ratio" := PyFloat float_1;
                 "model_price" := PyInt 7 ]} ]}
    (ModelRecord "m" "acme")
  = inr "| `m` | Acme | $2.00 | $2.00 |"
  /\ render_row Str.title
    {[ "m" := {[ "quota_type" := PyInt (-1); "model_ratio" := PyFloat float_1;
                 "model_price" := PyInt 7 ]} ]}
    (ModelRecord "m" "acme")
  = inr "| `m` | Acme | $2.00 | $2.00 |".
Proof.
  split.
  - rewrite (proj1 (proj2 (token_pricing_unless_quota_type_1 Str.title _ _)) 2);
      [reflexivity | reflexivity | lia].
  - rewrite (proj1 (token_pricing_unless_quota_type_1 Str.title _ _));
      reflexivity.
Defined.

Lemma sample_rows_rendered :
  render_rows Str.title (build_pricing sample_pricing) [] (sort_models Str.title sample_models)
  = inr sample_rows.
Proof. vm_compute. reflexivity. Qed.

Lemma one_row_per_model_witness :
  main Str.title sample_world = (inr tt, world_after sample_world 4 sample_rows)
  /\ length sample_rows = 4%nat.
Proof.
  pose proof (one_row_per_model Str.title sample_world sample_models sample_pricing
                eq_refl eq_refl) as H.
  cbv zeta in H. rewrite sample_rows_rendered in H.
  destruct H as (_ & (Hmain & Hlen & _) & _).
  split; [exact Hmain | exact Hlen].
Defined.

Lemma rows_ascend_by_provider_then_id_witness :
  exists m_i m_j,
    m_i ∈ sample_models /\ m_j ∈ sample_models
    /\ render_row Str.title (build_pricing sample_pricing) m_i
       = inr "| `flux` | Bfl | $0.04/req | - |"
    /\ render_row Str.title (build_pricing sample_pricing) m_j
       = inr "| `gpt-4o` | OpenAI | $2.00 | $4.00 |"
    /\ let provider_i := detect_provider Str.title (m_id m_i) (m_owned_by m_i) in
       let provider_j := detect_provider Str.title (m_id m_j) (m_owned_by m_j) in
       (provider_i <> provider_j -> String.ltb provider_i provider_j = true)
       /\ (provider_i = provider_j -> String.leb (m_id m_i) (m_id m_j) = true).
Proof.
  apply (rows_ascend_by_provider_then_id Str.title
           (build_pricing sample_pricing) sample_models sample_rows 0 2).
  - exact sample_rows_rendered.
  - lia.
  - reflexivity.
  - reflexivity.
Defined.

Lemma failed_fetch_keeps_output_witness :
  main Str.title offline_world = (inl URLError, offline_world)
  /\ output_file (main Str.title offline_world).2 = Some "stale".
Proof.
  pose proof (failed_fetch_keeps_output Str.title offline_world) as (_ & Hpricing & Hkeep & _).
  pose proof (Hpricing URLError sample_models eq_refl eq_refl) as Hmain.
  split; [exact Hmain|].
  apply (Hkeep URLError). by rewrite Hmain.
Defined.

Lemma output_determined_by_responses_witness :
  output_file (main Str.title sample_world).2 = output_file (main Str.title fresh_world).2
  /\ output_file (main Str.title sample_world).2 <> None.
Proof.
  apply (proj1 (proj2 (output_determined_by_responses Str.title sample_world fresh_world
                         eq_refl eq_refl))).
  vm_compute. reflexivity.
Defined.

Example title_after_digit : Str.title "gpt4o mini" = "Gpt4O Mini".
Proof. reflexivity. Qed.

Example detect_category_repeated :
  detect_category Str.title ["openai"; "gemini"; "text-embedding"; "openai"]
  = "Chat, Text Embedding".
Proof. reflexivity. Qed.

Example base_unit_is_two : BASE_UNIT = S754_finite false 4503599627370496 (-51).
Proof. reflexivity. Qed.

Example repr_of_floats :
  map Num.float_repr
    [ Num.decimal_literal 1 2; Num.decimal_literal 25 1;
      Num.float_of_Z (10 ^ 16); Num.decimal_literal 1 5;
      S754_finite false 1 (-1074); S754_finite true 4503599627370498 (-3) ]
  = [ "0.01"; "2.5"; "1e+16"; "1e-05"; "5e-324"; "-562949953421312.2" ].
Proof. vm_compute. reflexivity. Qed.

Example format_f_rounds_half_even :
  map (Num.format_f 2)
    [ Num.decimal_literal 125 3; Num.decimal_literal 375 3;
      Num.decimal_literal 2675 3; S754_zero true ]
  = [ "0.12"; "0.38"; "2.67"; "-0.00" ].
Proof. vm_compute. reflexivity. Qed.

Example int_product_overflows :
  token_labels (PyInt (10 ^ 400)) (PyInt 1) = inl OverflowError.
Proof. vm_compute. reflexivity. Qed.

Example sorting_is_by_provider_label :
  map m_id (sort_models Str.title sample_models) = ["flux"; "gemini-2"; "gpt-4o"; "abc"].
Proof. reflexivity. Qed.

Lemma pricing_order_irrelevant_witness :
  build_pricing sample_pricing = build_pricing (reverse sample_pricing).
Proof.
  assert (Hnames : NoDup (map model_name sample_pricing)).
  { apply (bool_decide_unpack (NoDup (map model_name sample_pricing))).
    vm_compute. exact I. }
  apply (proj1 (pricing_order_irrelevant Str.title sample_world sample_models
                  sample_pricing (reverse sample_pricing) Hnames
                  (Permutation_sym (reverse_Permutation sample_pricing)))).
Defined.

Lemma sort_models_keeps_sorted_witness :
  sort_models Str.title [ModelRecord "gemini-2" "vertex-ai"; ModelRecord "gpt-4o" "openai"]
  = [ModelRecord "gemini-2" "vertex-ai"; ModelRecord "gpt-4o" "openai"].
Proof.
  apply (proj1 (sort_models_keeps_sorted Str.title _)).
  repeat constructor.
Defined.

Lemma model_order_irrelevant_witness :
  sort_models Str.title sample_models = sort_models Str.title (reverse sample_models).
Proof.
  assert (Hids : NoDup (map m_id sample_models)).
  { apply (bool_decide_unpack (NoDup (map m_id sample_models))).
    vm_compute. exact I. }
  apply (proj1 (model_order_irrelevant Str.title sample_world sample_models
                  (reverse sample_models) sample_pricing Hids
                  (Permutation_sym (reverse_Permutation sample_models)))).
Defined.

Lemma one_overflowing_row_aborts_witness :
  main Str.title
    (with_responses sample_world
       [ModelRecord "gpt-4o" "openai"; ModelRecord "big" "acme"]
       [PricingRecord "big" {[ "model_ratio" := PyInt (10 ^ 400) ]}])
  = (inl OverflowError,
     with_responses sample_world
       [ModelRecord "gpt-4o" "openai"; ModelRecord "big" "acme"]
       [PricingRecord "big" {[ "model_ratio" := PyInt (10 ^ 400) ]}]).
Proof.
  apply (proj2 (proj2 (proj2 (one_overflowing_row_aborts Str.title sample_world
           [ModelRecord "gpt-4o" "openai"; ModelRecord "big" "acme"]
           [PricingRecord "big" {[ "model_ratio" := PyInt (10 ^ 400) ]}])))).
  exists (ModelRecord "big" "acme"), OverflowError. split.
  - right. left.
  - vm_compute. reflexivity.
Defined.

Lemma empty_model_list_completes_witness :
  output_file (main Str.title empty_world).2 = Some (document 0 "").
Proof.
  apply (proj1 (proj2 (empty_model_list_completes Str.title empty_world
                         [PricingRecord "x" {[ "model_ratio" := PyInt (10 ^ 400) ]}]
                         eq_refl eq_refl))).
Defined.

Lemma detect_category_labels_distinct_witness :
  detect_category Str.title (["openai"; "image-generation"] ++ ["gemini"])
  = detect_category Str.title ["openai"; "image-generation"].
Proof.
  apply (proj1 (proj2 (proj2 (detect_category_labels_distinct Str.title
                                ["openai"; "image-generation"])))).
  repeat constructor.
Defined.

Lemma provider_table_order_irrelevant_witness :
  provider_by_prefix (reverse PROVIDER_MAP) "gpt-4o" = Some "OpenAI".
Proof.
  rewrite (proj2 (provider_table_order_irrelevant "gpt-4o")
             (reverse PROVIDER_MAP) (reverse_Permutation PROVIDER_MAP)).
  reflexivity.
Defined.

Lemma negative_price_four_decimals_witness :
  format_price (S754_finite true 4503599627370496 (-53))
  = "$" +:+ Num.format_f 4 (S754_finite true 4503599627370496 (-53)).
Proof.
  apply (proj1 (proj1 (negative_price_four_decimals
                         (S754_finite true 4503599627370496 (-53)))
                  eq_refl)).
Defined.

Example negative_half : format_price (S754_finite true 4503599627370496 (-53)) = "$-0.5000".
Proof. vm_compute. reflexivity. Qed.

Lemma tiny_price_written_as_zero_dollars_witness :
  format_price (Num.decimal_literal 1 5) = "$0.0000".
Proof.
  apply tiny_price_written_as_zero_dollars; reflexivity.
Defined.

Lemma input_price_exactly_twice_ratio_witness :
  exists s',
    Num.float_mul (S754_finite false 9007199254740991 971) BASE_UNIT
    = S754_infinity s'.
Proof.
  apply (proj2 (proj2 (proj2 (input_price_exactly_twice_ratio
                                (S754_finite false 9007199254740991 971)
                                eq_refl)))).
  vm_compute. reflexivity.
Defined.

Lemma default_completion_ratio_repeats_input_witness :
  price_labels {[ "model_ratio" := PyFloat float_2_5 ]} = inr ("$5.00", "$5.00").
Proof.
  rewrite (default_completion_ratio_repeats_input
             {[ "model_ratio" := PyFloat float_2_5 ]})
    by (vm_compute; reflexivity).
  vm_compute. reflexivity.
Defined.

Lemma table_layout_witness :
  Forall (fun row => count_char "|" row = 5%nat
                     /\ count_char "`" row = 2%nat
                     /\ count_char Str.nl row = O) sample_rows
  /\ count_char Str.nl (Str.join newline sample_rows) = 3%nat.
Proof.
  apply (proj2 (table_layout Str.title (title_from_clean false) (build_pricing sample_pricing)
                  (sort_models Str.title sample_models) sample_rows sample_rows_rendered)).
  repeat constructor.
Defined.

Lemma models_grouped_by_provider_witness :
  detect_provider Str.title "gpt-4o" "openai" = detect_provider Str.title "gpt-4" "azure".
Proof.
  apply (models_grouped_by_provider Str.title
           [ ModelRecord "gpt-4o-mini" "openai"; ModelRecord "gemini-2" "vertex-ai";
             ModelRecord "gpt-4" "azure"; ModelRecord "gpt-4o" "openai" ]
           1 2 3
           (ModelRecord "gpt-4" "azure") (ModelRecord "gpt-4o" "openai")
           (ModelRecord "gpt-4o-mini" "openai"));
    [lia | lia | reflexivity..].
Defined.
